(** * Vaunix Lab Brick driver headers: status words, mode words, status codes

    A shallow embedding of the three vendor headers

      - LabBrick_LMS_Synthesizer/DLL/vnx_fmsynth.h   (module [LMS])
      - LabBrick_LSG_SignalGenerator/DLL/vnx_fsynsth.h (module [LSG])
      - Vaunix_Attenuator/VNX_atten.h                 (module [LDA])

    Every [#define] that carries a value is transcribed under its own name.
    The headers only declare the DLL entry points ([fnLMS_...], [fnLSG_...],
    [fnLDA_...]); their bodies live in the vendor DLLs.  The session layer
    (registry, sessions, sequencers, status decoder) is therefore given as a
    model of the written specification, and every such definition says so. *)

From Stdlib Require Import ZArith Lia Bool List.
From stdpp Require Import base option list gmap.

Local Open Scope Z_scope.

(** ** The headers *)

(** vnx_fmsynth.h: Lab Brick microwave frequency synthesizers. *)
Module LMS.
Definition MAXDEVICES : Z := 64.
Definition MAX_MODELNAME : Z := 32.

Definition MODE_RFON   : Z := 0x00000010.
Definition MODE_INTREF : Z := 0x00000020.
Definition MODE_SWEEP  : Z := 0x0000000F.

Definition MODE_PWMON  : Z := 0x00000100.
Definition MODE_EXTPWM : Z := 0x00000200.
Definition PWM_MASK    : Z := 0x00000300.

Definition STATUS_OK        : Z := 0.
Definition BAD_PARAMETER    : Z := 0x80010000.
Definition BAD_HID_IO       : Z := 0x80020000.
Definition DEVICE_NOT_READY : Z := 0x80030000.

Definition INVALID_DEVID     : Z := 0x80000000.
Definition DEV_CONNECTED     : Z := 0x00000001.
Definition DEV_OPENED        : Z := 0x00000002.
Definition SWP_ACTIVE        : Z := 0x00000004.
Definition SWP_UP            : Z := 0x00000008.
Definition SWP_REPEAT        : Z := 0x00000010.
Definition SWP_BIDIRECTIONAL : Z := 0x00000020.
Definition PLL_LOCKED        : Z := 0x00000040.
Definition FAST_PULSE_OPTION : Z := 0x00000080.

Definition DEV_LOCKED   : Z := 0x00002000.
Definition DEV_RDTHREAD : Z := 0x00004000.
End LMS.

(** vnx_fsynsth.h: Lab Brick signal generators. *)
Module LSG.
Definition MAXDEVICES : Z := 64.
Definition MAX_MODELNAME : Z := 32.

Definition MODE_RFON   : Z := 0x00000010.
Definition MODE_INTREF : Z := 0x00000020.
Definition MODE_SWEEP  : Z := 0x0000000F.

Definition STATUS_OK        : Z := 0.
Definition BAD_PARAMETER    : Z := 0x80010000.
Definition BAD_HID_IO       : Z := 0x80020000.
Definition DEVICE_NOT_READY : Z := 0x80030000.

Definition INVALID_DEVID : Z := 0x80000000.
Definition DEV_CONNECTED : Z := 0x00000001.
Definition DEV_OPENED    : Z := 0x00000002.
Definition SWP_ACTIVE    : Z := 0x00000004.
Definition SWP_UP        : Z := 0x00000008.
Definition SWP_REPEAT    : Z := 0x00000010.

Definition DEV_LOCKED   : Z := 0x00000020.
Definition DEV_RDTHREAD : Z := 0x00000040.
End LSG.

(** VNX_atten.h: Lab Brick digital attenuators. *)
Module LDA.
Definition MAXDEVICES : Z := 64.
Definition MAX_MODELNAME : Z := 32.
Definition PROFILE_MAX : Z := 100.

Definition MODE_RFON   : Z := 0x00000040.
Definition MODE_INTREF : Z := 0x00000020.
Definition MODE_SWEEP  : Z := 0x0000001F.

Definition STATUS_OK             : Z := 0.
Definition BAD_PARAMETER         : Z := 0x80010000.
Definition BAD_HID_IO            : Z := 0x80020000.
Definition DEVICE_NOT_READY      : Z := 0x80030000.
Definition FEATURE_NOT_SUPPORTED : Z := 0x80040000.

Definition INVALID_DEVID     : Z := 0x80000000.
Definition DEV_CONNECTED     : Z := 0x00000001.
Definition DEV_OPENED        : Z := 0x00000002.
Definition SWP_ACTIVE        : Z := 0x00000004.
Definition SWP_UP            : Z := 0x00000008.
Definition SWP_REPEAT        : Z := 0x00000010.
Definition SWP_BIDIRECTIONAL : Z := 0x00000020.
Definition PROFILE_ACTIVE    : Z := 0x00000040.
End LDA.

(** ** Machine integers

    [DEVID] is [unsigned int] and [LVSTATUS] is [int]; both are 32 bits wide
    on the platforms the DLLs are built for.  A 32-bit pattern is a [Z] in
    [0, 2^32); [as_int] reads such a pattern as a signed [int]. *)

Definition WORD_BITS : Z := 32.

Definition as_uint (z : Z) : Z := z mod 2 ^ WORD_BITS.

Definition as_int (z : Z) : Z :=
  (z + 2 ^ (WORD_BITS - 1)) mod 2 ^ WORD_BITS - 2 ^ (WORD_BITS - 1).

(** The C test [(word & MASK) != 0]. *)
Definition flag_set (word mask : Z) : bool := negb (Z.land word mask =? 0).

(** ** Families and the flags of the status word *)

Inductive Family : Set := Synthesizer | Generator | Attenuator.

Inductive Flag : Set :=
  | InvalidDevId | Connected | Opened | SweepActive | DirectionUp | Repeat
  | Bidirectional | PllLocked | FastPulseOption | ProfileActive
  | DevLocked | DevRdThread.

#[global] Instance Family_eq_dec : EqDecision Family.
Proof. solve_decision. Defined.

#[global] Instance Flag_eq_dec : EqDecision Flag.
Proof. solve_decision. Defined.

Definition all_families : list Family := [Synthesizer; Generator; Attenuator].

Definition all_flags : list Flag :=
  [InvalidDevId; Connected; Opened; SweepActive; DirectionUp; Repeat;
   Bidirectional; PllLocked; FastPulseOption; ProfileActive;
   DevLocked; DevRdThread].

(** The DevStatus mask each header defines for a flag; [None] where the
    header of that family has no such [#define]. *)
Definition status_mask (fam : Family) (fl : Flag) : option Z :=
  match fam, fl with
  | Synthesizer, InvalidDevId    => Some LMS.INVALID_DEVID
  | Synthesizer, Connected       => Some LMS.DEV_CONNECTED
  | Synthesizer, Opened          => Some LMS.DEV_OPENED
  | Synthesizer, SweepActive     => Some LMS.SWP_ACTIVE
  | Synthesizer, DirectionUp     => Some LMS.SWP_UP
  | Synthesizer, Repeat          => Some LMS.SWP_REPEAT
  | Synthesizer, Bidirectional   => Some LMS.SWP_BIDIRECTIONAL
  | Synthesizer, PllLocked       => Some LMS.PLL_LOCKED
  | Synthesizer, FastPulseOption => Some LMS.FAST_PULSE_OPTION
  | Synthesizer, ProfileActive   => None
  | Synthesizer, DevLocked       => Some LMS.DEV_LOCKED
  | Synthesizer, DevRdThread     => Some LMS.DEV_RDTHREAD
  | Generator, InvalidDevId    => Some LSG.INVALID_DEVID
  | Generator, Connected       => Some LSG.DEV_CONNECTED
  | Generator, Opened          => Some LSG.DEV_OPENED
  | Generator, SweepActive     => Some LSG.SWP_ACTIVE
  | Generator, DirectionUp     => Some LSG.SWP_UP
  | Generator, Repeat          => Some LSG.SWP_REPEAT
  | Generator, Bidirectional   => None
  | Generator, PllLocked       => None
  | Generator, FastPulseOption => None
  | Generator, ProfileActive   => None
  | Generator, DevLocked       => Some LSG.DEV_LOCKED
  | Generator, DevRdThread     => Some LSG.DEV_RDTHREAD
  | Attenuator, InvalidDevId    => Some LDA.INVALID_DEVID
  | Attenuator, Connected       => Some LDA.DEV_CONNECTED
  | Attenuator, Opened          => Some LDA.DEV_OPENED
  | Attenuator, SweepActive     => Some LDA.SWP_ACTIVE
  | Attenuator, DirectionUp     => Some LDA.SWP_UP
  | Attenuator, Repeat          => Some LDA.SWP_REPEAT
  | Attenuator, Bidirectional   => Some LDA.SWP_BIDIRECTIONAL
  | Attenuator, PllLocked       => None
  | Attenuator, FastPulseOption => None
  | Attenuator, ProfileActive   => Some LDA.PROFILE_ACTIVE
  | Attenuator, DevLocked       => None
  | Attenuator, DevRdThread     => None
  end.

(** Testing one flag of a raw status word with the family's own mask. *)
Definition raw_flag (fam : Family) (fl : Flag) (word : Z) : option bool :=
  flag_set word <$> status_mask fam fl.

(** The status word layout table as the specification prints it: the bit
    position of each flag per family, [None] for the entries printed as a
    dash or as n/a. *)
Definition layout_bit (fam : Family) (fl : Flag) : option Z :=
  match fl with
  | InvalidDevId => Some 31
  | Connected    => Some 0
  | Opened       => Some 1
  | SweepActive  => Some 2
  | DirectionUp  => Some 3
  | Repeat       => Some 4
  | Bidirectional =>
      match fam with Synthesizer | Attenuator => Some 5 | Generator => None end
  | PllLocked =>
      match fam with Synthesizer => Some 6 | _ => None end
  | FastPulseOption =>
      match fam with Synthesizer => Some 7 | _ => None end
  | ProfileActive =>
      match fam with Attenuator => Some 6 | _ => None end
  | DevLocked =>
      match fam with Synthesizer => Some 13 | Generator => Some 5 | Attenuator => None end
  | DevRdThread =>
      match fam with Synthesizer => Some 14 | Generator => Some 6 | Attenuator => None end
  end.

(** The flags a family keeps at a given bit of its status word. *)
Definition flags_at (fam : Family) (bit : Z) : list Flag :=
  filter (fun fl => status_mask fam fl = Some (2 ^ bit)) all_flags.

(** ** Status returns for commands *)

(** The [LVSTATUS] values the three headers name. *)
Inductive Status : Set :=
  | StOk | StBadParameter | StBadIo | StDeviceNotReady | StFeatureNotSupported.

#[global] Instance Status_eq_dec : EqDecision Status.
Proof. solve_decision. Defined.

Definition all_statuses : list Status :=
  [StOk; StBadParameter; StBadIo; StDeviceNotReady; StFeatureNotSupported].

(** The value a header gives a status; only VNX_atten.h defines
    [FEATURE_NOT_SUPPORTED]. *)
Definition status_code (fam : Family) (s : Status) : option Z :=
  match fam, s with
  | Synthesizer, StOk             => Some LMS.STATUS_OK
  | Synthesizer, StBadParameter   => Some LMS.BAD_PARAMETER
  | Synthesizer, StBadIo          => Some LMS.BAD_HID_IO
  | Synthesizer, StDeviceNotReady => Some LMS.DEVICE_NOT_READY
  | Synthesizer, StFeatureNotSupported => None
  | Generator, StOk             => Some LSG.STATUS_OK
  | Generator, StBadParameter   => Some LSG.BAD_PARAMETER
  | Generator, StBadIo          => Some LSG.BAD_HID_IO
  | Generator, StDeviceNotReady => Some LSG.DEVICE_NOT_READY
  | Generator, StFeatureNotSupported => None
  | Attenuator, StOk             => Some LDA.STATUS_OK
  | Attenuator, StBadParameter   => Some LDA.BAD_PARAMETER
  | Attenuator, StBadIo          => Some LDA.BAD_HID_IO
  | Attenuator, StDeviceNotReady => Some LDA.DEVICE_NOT_READY
  | Attenuator, StFeatureNotSupported => Some LDA.FEATURE_NOT_SUPPORTED
  end.

Definition is_error (s : Status) : bool :=
  match s with StOk => false | _ => true end.

(** ** Mode bit masks *)

Definition MODE_RFON (fam : Family) : Z :=
  match fam with
  | Synthesizer => LMS.MODE_RFON
  | Generator   => LSG.MODE_RFON
  | Attenuator  => LDA.MODE_RFON
  end.

Definition MODE_INTREF (fam : Family) : Z :=
  match fam with
  | Synthesizer => LMS.MODE_INTREF
  | Generator   => LSG.MODE_INTREF
  | Attenuator  => LDA.MODE_INTREF
  end.

Definition MODE_SWEEP (fam : Family) : Z :=
  match fam with
  | Synthesizer => LMS.MODE_SWEEP
  | Generator   => LSG.MODE_SWEEP
  | Attenuator  => LDA.MODE_SWEEP
  end.

(** Reading the fields of a mode word with a family's masks. *)
Definition mode_rf_on (fam : Family) (mode : Z) : bool :=
  flag_set mode (MODE_RFON fam).

Definition mode_sweep_bits (fam : Family) (mode : Z) : Z :=
  Z.land mode (MODE_SWEEP fam).

Definition mode_pwm_bits (mode : Z) : Z := Z.land mode LMS.PWM_MASK.

(** Modelled from the spec: the headers define the masks of the mode word but
    no function that writes it.  "May be set independently" is rendered as
    the masked read-modify-write [(mode & ~MASK) | (bits & MASK)]. *)
Definition update_field (mask mode bits : Z) : Z :=
  Z.lor (Z.land mode (Z.lnot mask)) (Z.land bits mask).

Definition set_sweep_bits (mode bits : Z) : Z :=
  update_field LMS.MODE_SWEEP mode bits.

Definition set_pwm_bits (mode bits : Z) : Z :=
  update_field LMS.PWM_MASK mode bits.

(** ** Status decoder *)

(** A dependent flag of a decoded status: either not known, or known to be
    set or clear. *)
Inductive FlagState : Set := Unknown | Known (b : bool).

#[global] Instance FlagState_eq_dec : EqDecision FlagState.
Proof. solve_decision. Defined.

(** Modelled from the spec: the decoded snapshot of section 3.  A field is
    [None] when the family's status word has no such flag. *)
Record DeviceStatus : Set := mkDeviceStatus {
  device_connected           : bool;
  device_opened              : option FlagState;
  sweep_or_ramp_active       : option FlagState;
  sweep_or_ramp_direction_up : option FlagState;
  repeat_enabled             : option FlagState;
  bidirectional_enabled      : option FlagState;
  pll_locked                 : option FlagState;
  fast_pulse_available       : option FlagState;
  profile_active             : option FlagState
}.

#[global] Instance DeviceStatus_eq_dec : EqDecision DeviceStatus.
Proof. solve_decision. Defined.

Definition DEV_CONNECTED (fam : Family) : Z :=
  match fam with
  | Synthesizer => LMS.DEV_CONNECTED
  | Generator   => LSG.DEV_CONNECTED
  | Attenuator  => LDA.DEV_CONNECTED
  end.

(** Modelled from the spec: a flag other than "connected" is reported as
    [Known] only when the word says a device is connected, and as [Unknown]
    otherwise. *)
Definition gate (connected : bool) (b : bool) : FlagState :=
  if connected then Known b else Unknown.

Definition dependent_flag (fam : Family) (fl : Flag) (word : Z) : option FlagState :=
  gate (flag_set word (DEV_CONNECTED fam)) <$> raw_flag fam fl word.

(** Modelled from the spec: [decode(raw_status_word, family)] of section 4.4,
    driven by the per-family mask table [status_mask]; the DLLs' own
    [fnLMS_GetDeviceStatus], [fnLSG_GetDeviceStatus] only hand out the raw
    word. *)
Definition decode (word : Z) (fam : Family) : DeviceStatus :=
  {| device_connected           := flag_set word (DEV_CONNECTED fam);
     device_opened              := dependent_flag fam Opened word;
     sweep_or_ramp_active       := dependent_flag fam SweepActive word;
     sweep_or_ramp_direction_up := dependent_flag fam DirectionUp word;
     repeat_enabled             := dependent_flag fam Repeat word;
     bidirectional_enabled      := dependent_flag fam Bidirectional word;
     pll_locked                 := dependent_flag fam PllLocked word;
     fast_pulse_available       := dependent_flag fam FastPulseOption word;
     profile_active             := dependent_flag fam ProfileActive word |}.

(** The flags of [DeviceStatus] that depend on "connected". *)
Definition dependent_flags : list Flag :=
  [Opened; SweepActive; DirectionUp; Repeat; Bidirectional; PllLocked;
   FastPulseOption; ProfileActive].

Definition status_field (st : DeviceStatus) (fl : Flag) : option FlagState :=
  match fl with
  | Opened          => device_opened st
  | SweepActive     => sweep_or_ramp_active st
  | DirectionUp     => sweep_or_ramp_direction_up st
  | Repeat          => repeat_enabled st
  | Bidirectional   => bidirectional_enabled st
  | PllLocked       => pll_locked st
  | FastPulseOption => fast_pulse_available st
  | ProfileActive   => profile_active st
  | InvalidDevId | Connected | DevLocked | DevRdThread => None
  end.
(** ** The session layer

    The headers declare [fnXXX_InitDevice], [fnXXX_CloseDevice], the
    [fnXXX_Set...]/[fnXXX_Get...] families, [fnXXX_StartSweep],
    [fnLDA_StartRamp], [fnLDA_StartProfile] and the profile accessors, but
    none of their bodies.  What follows models them from sections 3 to 7 of
    the specification. *)

(** Modelled from the spec: the error taxonomy of section 7, together with
    [UnknownDevice] of section 4.1. *)
Inductive Error : Set :=
  | InvalidDeviceId | DeviceNotReady | BadParameter | IoError
  | FeatureNotSupported | InvalidState | UnknownDevice.

#[global] Instance Error_eq_dec : EqDecision Error.
Proof. solve_decision. Defined.

(** Modelled from the spec: the tagged result of section 9, a success value
    or one named error kind. *)
Inductive Result (A : Type) : Type :=
  | Ok (a : A)
  | Fail (e : Error).

Arguments Ok {A} a.
Arguments Fail {A} e.

(** The numeric parameters of the ParameterSet of section 3. *)
Inductive Param : Set :=
  | CurrentFrequency | StartFrequency | EndFrequency | Level
  | StepSize | DwellTime | HoldTime | IdleTime
  | ProfileDwellTime | ProfileIdleTime.

#[global] Instance Param_eq_dec : EqDecision Param.
Proof. solve_decision. Defined.

(** *** Transport

    Modelled from the spec: the external collaborator of section 6, reduced
    to what the session layer can observe of it: the requests handed to
    [exchange], in order (latest first), and whether each exchange comes
    back or fails.  [replies] scripts the outcomes of the exchanges still to
    come; once the script is used up every exchange succeeds. *)
Inductive Command : Set :=
  | CmdSetParam (p : Param) (v : Z)
  | CmdSetProfileElement (index v : Z)
  | CmdSetProfileCount (n : Z)
  | CmdGo
  | CmdStop.

Record Transport : Set := mkTransport {
  sent    : list Command;
  replies : list bool
}.

Definition exchange (t : Transport) (c : Command) : bool * Transport :=
  match replies t with
  | []        => (true, {| sent := c :: sent t; replies := [] |})
  | ok :: rest => (ok,  {| sent := c :: sent t; replies := rest |})
  end.

(** *** Device registry *)

Abbreviation DEVID := Z (only parsing).

(** Modelled from the spec: the DeviceRecord of section 3 (the model name is
    kept as its list of character codes). *)
Record DeviceRecord : Set := mkDeviceRecord {
  id            : DEVID;
  model_name    : list Z;
  serial_number : Z;
  family        : Family;
  connected     : bool;
  opened        : bool
}.

Definition set_opened (b : bool) (r : DeviceRecord) : DeviceRecord :=
  {| id := id r; model_name := model_name r; serial_number := serial_number r;
     family := family r; connected := connected r; opened := b |}.

(** Modelled from the spec: what a device reports when a session is opened
    (current values, min/max bounds, capability flags, stored profile). *)
Record HardwareFacts : Type := mkHardwareFacts {
  hw_values        : Param -> Z;
  hw_min           : Param -> Z;
  hw_max           : Param -> Z;
  hw_fast_pulse    : bool;
  hw_bidirectional : bool;
  hw_profile       : list Z;
  hw_profile_count : Z
}.

(** *** Sequencer state *)

Inductive SeqState : Set := Idle | Armed | Running.

#[global] Instance SeqState_eq_dec : EqDecision SeqState.
Proof. solve_decision. Defined.

Inductive SeqKind : Set := Sweep | Ramp | Profile.

Inductive Direction : Set := Up | Down.

Record SeqConfig : Set := mkSeqConfig {
  cfg_start         : Z;
  cfg_end           : Z;
  cfg_step          : Z;
  cfg_dwell         : Z;
  cfg_direction     : Direction;
  cfg_repeat        : bool;
  cfg_bidirectional : bool
}.

(** Modelled from the spec: the sequencer of section 4.3. *)
Record Sequencer : Set := mkSequencer {
  seq_kind   : SeqKind;
  seq_state  : SeqState;
  seq_config : option SeqConfig
}.

Definition with_state (st : SeqState) (sq : Sequencer) : Sequencer :=
  {| seq_kind := seq_kind sq; seq_state := st; seq_config := seq_config sq |}.

(** *** Sessions *)

(** Modelled from the spec: the Device Session of section 4.2 with its cached
    ParameterSet, the bounds and capabilities read once at open, and the
    attenuator profile of [LDA.PROFILE_MAX] slots. *)
Record Session : Type := mkSession {
  sess_dev      : DEVID;
  sess_family   : Family;
  sess_open     : bool;
  cached        : Param -> Z;
  bound_min     : Param -> Z;
  bound_max     : Param -> Z;
  cap_fast_pulse    : bool;
  cap_bidirectional : bool;
  profile       : list Z;
  profile_count : Z
}.

Definition with_open (b : bool) (s : Session) : Session :=
  {| sess_dev := sess_dev s; sess_family := sess_family s; sess_open := b;
     cached := cached s; bound_min := bound_min s; bound_max := bound_max s;
     cap_fast_pulse := cap_fast_pulse s;
     cap_bidirectional := cap_bidirectional s;
     profile := profile s; profile_count := profile_count s |}.

Definition with_cached (p : Param) (v : Z) (s : Session) : Session :=
  {| sess_dev := sess_dev s; sess_family := sess_family s;
     sess_open := sess_open s;
     cached := fun q => if decide (q = p) then v else cached s q;
     bound_min := bound_min s; bound_max := bound_max s;
     cap_fast_pulse := cap_fast_pulse s;
     cap_bidirectional := cap_bidirectional s;
     profile := profile s; profile_count := profile_count s |}.

Definition with_profile (l : list Z) (n : Z) (s : Session) : Session :=
  {| sess_dev := sess_dev s; sess_family := sess_family s;
     sess_open := sess_open s;
     cached := cached s; bound_min := bound_min s; bound_max := bound_max s;
     cap_fast_pulse := cap_fast_pulse s;
     cap_bidirectional := cap_bidirectional s;
     profile := l; profile_count := n |}.

(** Modelled from the spec: "profile_count clamps to <= 100". *)
Definition clamp_count (n : Z) : Z := Z.max 0 (Z.min n LDA.PROFILE_MAX).

(** The session a successful open hands out: everything is read once from
    the device's report. *)
Definition fresh_session (dev : DEVID) (r : DeviceRecord) (hw : HardwareFacts)
    : Session :=
  {| sess_dev := dev; sess_family := family r; sess_open := true;
     cached := hw_values hw; bound_min := hw_min hw; bound_max := hw_max hw;
     cap_fast_pulse := hw_fast_pulse hw;
     cap_bidirectional := hw_bidirectional hw;
     profile := resize (Z.to_nat LDA.PROFILE_MAX) 0 (hw_profile hw);
     profile_count := clamp_count (hw_profile_count hw) |}.

(** Modelled from the spec: [open(id)] of section 4.2.  It fails with
    [DeviceNotReady] when the device is not connected (or not known to the
    registry) or already opened; on success the record is marked opened. *)
Definition open_device (reg : gmap Z DeviceRecord) (hw : HardwareFacts)
    (dev : DEVID) : Result (gmap Z DeviceRecord * Session) :=
  match reg !! dev with
  | Some r =>
      if connected r && negb (opened r)
      then Ok (<[dev := set_opened true r]> reg, fresh_session dev r hw)
      else Fail DeviceNotReady
  | None => Fail DeviceNotReady
  end.

(** Modelled from the spec: [close()] of section 4.2: always succeeds,
    releases the handle and clears [opened] on the backing record; closing a
    session that is already closed changes nothing. *)
Definition close_device (reg : gmap Z DeviceRecord) (s : Session)
    : gmap Z DeviceRecord * Session :=
  if sess_open s
  then (alter (set_opened false) (sess_dev s) reg, with_open false s)
  else (reg, s).

Definition out_of_bounds (s : Session) (p : Param) (v : Z) : bool :=
  (v <? bound_min s p) || (bound_max s p <? v).

(** Modelled from the spec: [get_<parameter>()] of section 4.2. *)
Definition get_param (p : Param) (s : Session) : Result Z :=
  if sess_open s then Ok (cached s p) else Fail DeviceNotReady.

(** Modelled from the spec: [set_<parameter>(value)] of section 4.2.  The
    value is checked against the cached bounds before any exchange; a failed
    exchange leaves the cached value as it was. *)
Definition set_param (p : Param) (v : Z) (s : Session) (t : Transport)
    : Result unit * Session * Transport :=
  if negb (sess_open s) then (Fail DeviceNotReady, s, t)
  else if out_of_bounds s p v then (Fail BadParameter, s, t)
  else
    let '(ok, t') := exchange t (CmdSetParam p v) in
    if ok then (Ok tt, with_cached p v s, t') else (Fail IoError, s, t').

(** *** Attenuator profile *)

Definition index_in_range (i : Z) : bool := (0 <=? i) && (i <? LDA.PROFILE_MAX).

(** Modelled from the spec: [profile[index] = value] of section 4.3, 0-based
    with append-or-overwrite semantics: a write inside the stored count
    overwrites, a write past it extends the count to cover the new slot.
    Indices beyond 99 and values outside the attenuation bounds are
    refused. *)
Definition set_profile_element (i v : Z) (s : Session) (t : Transport)
    : Result unit * Session * Transport :=
  if negb (sess_open s) then (Fail DeviceNotReady, s, t)
  else if negb (index_in_range i) then (Fail BadParameter, s, t)
  else if out_of_bounds s Level v then (Fail BadParameter, s, t)
  else
    let '(ok, t') := exchange t (CmdSetProfileElement i v) in
    if ok
    then (Ok tt,
          with_profile (<[Z.to_nat i := v]> (profile s))
                       (Z.max (profile_count s) (i + 1)) s,
          t')
    else (Fail IoError, s, t').

(** Modelled from the spec: reading [profile[index]]. *)
Definition get_profile_element (i : Z) (s : Session) : Result Z :=
  if negb (sess_open s) then Fail DeviceNotReady
  else if negb (index_in_range i) then Fail BadParameter
  else match profile s !! Z.to_nat i with
       | Some v => Ok v
       | None => Fail BadParameter
       end.

(** Modelled from the spec: setting the profile length; a negative count is
    refused, a count above [LDA.PROFILE_MAX] is clamped to it. *)
Definition set_profile_count (n : Z) (s : Session) (t : Transport)
    : Result unit * Session * Transport :=
  if negb (sess_open s) then (Fail DeviceNotReady, s, t)
  else if n <? 0 then (Fail BadParameter, s, t)
  else
    let n' := clamp_count n in
    let '(ok, t') := exchange t (CmdSetProfileCount n') in
    if ok then (Ok tt, with_profile (profile s) n' s, t')
    else (Fail IoError, s, t').

Definition get_profile_count (s : Session) : Result Z :=
  if sess_open s then Ok (profile_count s) else Fail DeviceNotReady.

(** *** Sequencer operations *)

Definition config_valid (c : SeqConfig) : bool :=
  ((cfg_start c <? cfg_end c) || (cfg_bidirectional c && (cfg_end c <? cfg_start c)))
  && (0 <? cfg_step c) && (0 <? cfg_dwell c).

(** Modelled from the spec: [configure] of section 4.3, valid only from
    [Idle]. *)
Definition configure (c : SeqConfig) (can_bidirectional : bool) (sq : Sequencer)
    : Result unit * Sequencer :=
  match seq_state sq with
  | Idle =>
      if cfg_bidirectional c && negb can_bidirectional
      then (Fail FeatureNotSupported, sq)
      else if config_valid c
      then (Ok tt, {| seq_kind := seq_kind sq; seq_state := Armed;
                      seq_config := Some c |})
      else (Fail BadParameter, sq)
  | Armed | Running => (Fail InvalidState, sq)
  end.

(** Modelled from the spec: [start()] of section 4.3, valid from [Armed], or
    from [Idle] when a previous configuration exists; issues "go". *)
Definition start (sq : Sequencer) (t : Transport)
    : Result unit * Sequencer * Transport :=
  let startable :=
    match seq_state sq, seq_config sq with
    | Armed, _ => true
    | Idle, Some _ => true
    | _, _ => false
    end in
  if startable then
    let '(ok, t') := exchange t CmdGo in
    if ok then (Ok tt, with_state Running sq, t') else (Fail IoError, sq, t')
  else (Fail InvalidState, sq, t).

(** Modelled from the spec: [stop()] of section 4.3: accepted in every state
    (an idle device is stopped again without complaint); it issues the device
    "stop" command and leaves the sequencer [Idle].  Like every exchange of
    sections 5 and 7, a failed one is surfaced as [IoError] and leaves the
    sequencer as it was. *)
Definition stop (sq : Sequencer) (t : Transport)
    : Result unit * Sequencer * Transport :=
  let '(ok, t') := exchange t CmdStop in
  if ok then (Ok tt, with_state Idle sq, t') else (Fail IoError, sq, t').

(** Modelled from the spec: the host polls the status; a running,
    non-repeating pass that the device reports as no longer active is
    over. *)
Definition poll (active : bool) (sq : Sequencer) : Sequencer :=
  match seq_state sq with
  | Running => if active then sq else with_state Idle sq
  | _ => sq
  end.

Inductive SeqOp : Set :=
  | OpConfigure (c : SeqConfig) (can_bidirectional : bool)
  | OpStart
  | OpStop
  | OpPoll (active : bool).

Definition seq_step (op : SeqOp) (st : Sequencer * Transport)
    : Sequencer * Transport :=
  let '(sq, t) := st in
  match op with
  | OpConfigure c cb => ((configure c cb sq).2, t)
  | OpStart => let '(_, sq', t') := start sq t in (sq', t')
  | OpStop  => let '(_, sq', t') := stop sq t in (sq', t')
  | OpPoll a => (poll a sq, t)
  end.

Definition seq_run (ops : list SeqOp) (st : Sequencer * Transport)
    : Sequencer * Transport :=
  foldl (fun st op => seq_step op st) st ops.

(** *** Many sessions over one registry *)

(** Modelled from the spec: a host that opens and closes sessions.  [System]
    keeps the registry and every session handed out so far. *)
Record System : Type := mkSystem {
  registry : gmap Z DeviceRecord;
  sessions : list Session
}.

Inductive HostOp : Type :=
  | HostOpen (dev : DEVID) (hw : HardwareFacts)
  | HostClose (n : nat).

Definition host_step (op : HostOp) (sys : System) : System :=
  match op with
  | HostOpen dev hw =>
      match open_device (registry sys) hw dev with
      | Ok (reg', s) => {| registry := reg'; sessions := sessions sys ++ [s] |}
      | Fail _ => sys
      end
  | HostClose n =>
      match sessions sys !! n with
      | Some s =>
          let '(reg', s') := close_device (registry sys) s in
          {| registry := reg'; sessions := <[n := s']> (sessions sys) |}
      | None => sys
      end
  end.

Definition host_run (ops : list HostOp) (sys : System) : System :=
  foldl (fun sys op => host_step op sys) sys ops.

(** A session holds the handle of [dev] when it is open on [dev]. *)
Definition holds (dev : DEVID) (s : Session) : bool :=
  sess_open s && bool_decide (sess_dev s = dev).

Definition holders (dev : DEVID) (l : list Session) : nat :=
  foldr (fun s n => if holds dev s then S n else n) 0%nat l.

Definition is_opened (reg : gmap Z DeviceRecord) (dev : DEVID) : bool :=
  match reg !! dev with Some r => opened r | None => false end.

(** *** Traces of session operations *)

Inductive SessionOp : Set :=
  | SetParam (p : Param) (v : Z)
  | SetProfileElement (i v : Z)
  | SetProfileCount (n : Z).

Definition session_step (op : SessionOp) (st : Session * Transport)
    : Session * Transport :=
  let '(s, t) := st in
  match op with
  | SetParam p v => let '(_, s', t') := set_param p v s t in (s', t')
  | SetProfileElement i v =>
      let '(_, s', t') := set_profile_element i v s t in (s', t')
  | SetProfileCount n =>
      let '(_, s', t') := set_profile_count n s t in (s', t')
  end.

Definition session_run (ops : list SessionOp) (st : Session * Transport)
    : Session * Transport :=
  foldl (fun st op => session_step op st) st ops.

(** The shape the profile keeps: [LDA.PROFILE_MAX] slots and a count within
    them. *)
Definition profile_wf (s : Session) : Prop :=
  length (profile s) = Z.to_nat LDA.PROFILE_MAX
  /\ 0 <= profile_count s <= LDA.PROFILE_MAX.

(** The registry flag accounts for every holder: a device that is not marked
    opened has no holder, one that is has at most one. *)
Definition exclusive (sys : System) : Prop :=
  forall dev : Z,
    (holders dev (sessions sys) <= if is_opened (registry sys) dev then 1 else 0)%nat.

(** *** A test-mode device

    A synthetic attenuator as the registry's test mode would list it, with
    what it reports at open; used to run the operations on concrete data. *)

Definition demo_hw : HardwareFacts :=
  {| hw_values := fun _ => 10; hw_min := fun _ => 0; hw_max := fun _ => 100;
     hw_fast_pulse := false; hw_bidirectional := true;
     hw_profile := [0; 10; 20]; hw_profile_count := 3 |}.

Definition demo_record : DeviceRecord :=
  {| id := 1; model_name := [76; 68; 65]; serial_number := 1234;
     family := Attenuator; connected := true; opened := false |}.

Definition demo_registry : gmap Z DeviceRecord := {[ 1 := demo_record ]}.

Definition demo_session : Session := fresh_session 1 demo_record demo_hw.

Definition quiet_transport : Transport := {| sent := []; replies := [] |}.



Definition demo_config : SeqConfig :=
  {| cfg_start := 1000; cfg_end := 2000; cfg_step := 10; cfg_dwell := 10;
     cfg_direction := Up; cfg_repeat := false; cfg_bidirectional := false |}.

(** ** Writing flags and fields

    The C idioms that go with a mask: [word | MASK] sets its bits and
    [word & ~MASK] clears them. *)

Definition set_bits (word mask : Z) : Z := Z.lor word mask.

Definition clear_bits (word mask : Z) : Z := Z.land word (Z.lnot mask).

(** The status word in which exactly the listed flags are raised, built by
    or-ing the family's masks (a flag the header does not define adds
    nothing). *)
Definition status_word (fam : Family) (fls : list Flag) : Z :=
  foldr (fun fl w => set_bits w (default 0 (status_mask fam fl))) 0 fls.

(** The named fields of the mode word. *)
Inductive ModeField : Set := RfOn | IntRef | SweepControl | PwmOn | ExtPwm.

#[global] Instance ModeField_eq_dec : EqDecision ModeField.
Proof. solve_decision. Defined.

(** The mode mask each header defines for a field; only vnx_fmsynth.h has
    the pulse-modulation bits. *)
Definition mode_mask (fam : Family) (f : ModeField) : option Z :=
  match fam, f with
  | Synthesizer, RfOn         => Some LMS.MODE_RFON
  | Synthesizer, IntRef       => Some LMS.MODE_INTREF
  | Synthesizer, SweepControl => Some LMS.MODE_SWEEP
  | Synthesizer, PwmOn        => Some LMS.MODE_PWMON
  | Synthesizer, ExtPwm       => Some LMS.MODE_EXTPWM
  | Generator, RfOn         => Some LSG.MODE_RFON
  | Generator, IntRef       => Some LSG.MODE_INTREF
  | Generator, SweepControl => Some LSG.MODE_SWEEP
  | Generator, PwmOn        => None
  | Generator, ExtPwm       => None
  | Attenuator, RfOn         => Some LDA.MODE_RFON
  | Attenuator, IntRef       => Some LDA.MODE_INTREF
  | Attenuator, SweepControl => Some LDA.MODE_SWEEP
  | Attenuator, PwmOn        => None
  | Attenuator, ExtPwm       => None
  end.

(** ** Bit-level facts *)

Lemma land_pow2 (w k : Z) :
  0 <= k -> Z.land w (2 ^ k) = if Z.testbit w k then 2 ^ k else 0.
Proof.
  intros Hk. apply Z.bits_inj'. intros n Hn.
  rewrite Z.land_spec, Z.pow2_bits_eqb by lia.
  destruct (Z.testbit w k) eqn:E.
  - rewrite Z.pow2_bits_eqb by lia.
    destruct (Z.eqb_spec k n) as [->|_]; [now rewrite E | apply andb_false_r].
  - rewrite Z.bits_0.
    destruct (Z.eqb_spec k n) as [->|_]; [now rewrite E | apply andb_false_r].
Qed.

Lemma flag_set_pow2 (w k : Z) : 0 <= k -> flag_set w (2 ^ k) = Z.testbit w k.
Proof.
  intros Hk. unfold flag_set. rewrite land_pow2 by lia.
  destruct (Z.testbit w k); [|reflexivity].
  assert (0 < 2 ^ k) by (apply Z.pow_pos_nonneg; lia).
  destruct (Z.eqb_spec (2 ^ k) 0); [lia | reflexivity].
Qed.

Lemma layout_bit_nonneg fam fl k : layout_bit fam fl = Some k -> 0 <= k.
Proof. destruct fam, fl; simpl; intros [= <-]; lia. Qed.

Lemma status_mask_layout fam fl :
  status_mask fam fl = (fun k => 2 ^ k) <$> layout_bit fam fl.
Proof. destruct fam, fl; reflexivity. Qed.

Lemma raw_flag_layout fam fl w :
  raw_flag fam fl w = Z.testbit w <$> layout_bit fam fl.
Proof.
  unfold raw_flag. rewrite status_mask_layout.
  destruct (layout_bit fam fl) as [k|] eqn:E; simpl; [|reflexivity].
  f_equal. apply flag_set_pow2. eapply layout_bit_nonneg; eassumption.
Qed.

Lemma flag_set_connected fam w : flag_set w (DEV_CONNECTED fam) = Z.testbit w 0.
Proof. destruct fam; apply (flag_set_pow2 w 0); lia. Qed.

Lemma dependent_flag_layout fam fl w :
  dependent_flag fam fl w
  = gate (Z.testbit w 0) <$> (Z.testbit w <$> layout_bit fam fl).
Proof.
  unfold dependent_flag. now rewrite flag_set_connected, raw_flag_layout.
Qed.

Lemma status_field_decode fam fl w :
  status_field (decode w fam) fl
  = if bool_decide (fl ∈ dependent_flags) then dependent_flag fam fl w else None.
Proof. destruct fl; reflexivity. Qed.

(** The bits below [WORD_BITS] of a word are those of its 32-bit pattern. *)
Lemma testbit_as_uint w k : 0 <= k < WORD_BITS -> Z.testbit (as_uint w) k = Z.testbit w k.
Proof. intros Hk. unfold as_uint. apply Z.mod_pow2_bits_low. lia. Qed.

Lemma layout_bit_in_word fam fl k : layout_bit fam fl = Some k -> 0 <= k < WORD_BITS.
Proof. destruct fam, fl; simpl; intros [= <-]; unfold WORD_BITS; lia. Qed.

Lemma raw_flag_as_uint fam fl w : raw_flag fam fl (as_uint w) = raw_flag fam fl w.
Proof.
  rewrite !raw_flag_layout.
  destruct (layout_bit fam fl) as [k|] eqn:E; simpl; [|reflexivity].
  f_equal. apply testbit_as_uint. eapply layout_bit_in_word; eassumption.
Qed.

Lemma decode_as_uint fam w : decode (as_uint w) fam = decode w fam.
Proof.
  unfold decode, dependent_flag.
  rewrite !raw_flag_as_uint, !flag_set_connected.
  rewrite testbit_as_uint by (unfold WORD_BITS; lia). reflexivity.
Qed.

(** Masked update only touches the bits of its mask. *)
Lemma update_field_frame (mask other mode bits : Z) :
  Z.land mask other = 0 ->
  Z.land (update_field mask mode bits) other = Z.land mode other.
Proof.
  intros Hdisj. apply Z.bits_inj'. intros n Hn.
  assert (Hbit : Z.testbit mask n && Z.testbit other n = false).
  { rewrite <- Z.land_spec, Hdisj. apply Z.bits_0. }
  unfold update_field.
  rewrite !Z.land_spec, Z.lor_spec, !Z.land_spec, Z.lnot_spec by lia.
  destruct (Z.testbit mask n), (Z.testbit other n), (Z.testbit mode n),
    (Z.testbit bits n); simpl in *; congruence.
Qed.

Lemma update_field_read (mask mode bits : Z) :
  Z.land (update_field mask mode bits) mask = Z.land bits mask.
Proof.
  apply Z.bits_inj'. intros n Hn. unfold update_field.
  rewrite !Z.land_spec, Z.lor_spec, !Z.land_spec, Z.lnot_spec by lia.
  destruct (Z.testbit mask n), (Z.testbit mode n), (Z.testbit bits n);
    reflexivity.
Qed.

(** ** The status word layout *)

(** C1. For every raw status word and every family, each flag is taken from
    exactly the bit the layout table gives: invalid device id at bit 31,
    connected at bit 0, opened at bit 1, sweep/ramp active at bit 2,
    direction up at bit 3, repeat at bit 4 in all three families;
    bidirectional at bit 5 for synthesizer and attenuator; PLL locked at bit
    6 and fast pulse option at bit 7 for the synthesizer only; profile active
    at bit 6 for the attenuator only; the internal locked and read-thread
    flags at bits 13 and 14 for the synthesizer and 5 and 6 for the
    generator.  The header masks are the powers of two of those positions,
    testing a mask reads that bit, and the decoded fields carry that bit
    whenever the word reports a connected device. *)
Theorem status_flags_at_layout_bits (fam : Family) (fl : Flag) (w : Z) :
  status_mask fam fl = (fun k => 2 ^ k) <$> layout_bit fam fl
  /\ raw_flag fam fl w = Z.testbit w <$> layout_bit fam fl
  /\ device_connected (decode w fam) = Z.testbit w 0
  /\ status_field (decode w fam) fl
     = if bool_decide (fl ∈ dependent_flags)
       then gate (Z.testbit w 0) <$> (Z.testbit w <$> layout_bit fam fl)
       else None.
Proof.
  split; [apply status_mask_layout|].
  split; [apply raw_flag_layout|].
  split; [apply flag_set_connected|].
  rewrite status_field_decode.
  case_bool_decide; [apply dependent_flag_layout | reflexivity].
Qed.

(** C2. Bits 5 and 6 mean different things per family: bit 5 is the
    bidirectional flag for synthesizer and attenuator but the internal
    locked flag for the generator; bit 6 is PLL locked for the synthesizer,
    the internal read-thread flag for the generator and profile active for
    the attenuator.  The word 0x61 (connected, bits 5 and 6 set) decodes to
    three different snapshots, and for the generator those two bits do not
    reach the snapshot at all. *)
Theorem status_bits_5_6_depend_on_family :
  flags_at Synthesizer 5 = [Bidirectional]
  /\ flags_at Generator 5 = [DevLocked]
  /\ flags_at Attenuator 5 = [Bidirectional]
  /\ flags_at Synthesizer 6 = [PllLocked]
  /\ flags_at Generator 6 = [DevRdThread]
  /\ flags_at Attenuator 6 = [ProfileActive]
  /\ (forall w : Z,
        bidirectional_enabled (decode w Synthesizer)
          = Some (gate (Z.testbit w 0) (Z.testbit w 5))
        /\ bidirectional_enabled (decode w Attenuator)
          = Some (gate (Z.testbit w 0) (Z.testbit w 5))
        /\ bidirectional_enabled (decode w Generator) = None
        /\ raw_flag Generator DevLocked w = Some (Z.testbit w 5)
        /\ pll_locked (decode w Synthesizer)
          = Some (gate (Z.testbit w 0) (Z.testbit w 6))
        /\ profile_active (decode w Attenuator)
          = Some (gate (Z.testbit w 0) (Z.testbit w 6))
        /\ pll_locked (decode w Generator) = None
        /\ profile_active (decode w Generator) = None
        /\ raw_flag Generator DevRdThread w = Some (Z.testbit w 6))
  /\ (exists w : Z,
        decode w Synthesizer <> decode w Generator
        /\ decode w Generator <> decode w Attenuator
        /\ decode w Synthesizer <> decode w Attenuator
        /\ bidirectional_enabled (decode w Synthesizer) = Some (Known true)
        /\ bidirectional_enabled (decode w Attenuator) = Some (Known true)
        /\ raw_flag Generator DevLocked w = Some true
        /\ pll_locked (decode w Synthesizer) = Some (Known true)
        /\ profile_active (decode w Attenuator) = Some (Known true)
        /\ raw_flag Generator DevRdThread w = Some true
        /\ decode w Generator = decode 0x01 Generator
        /\ decode w Synthesizer <> decode 0x01 Synthesizer
        /\ decode w Attenuator <> decode 0x01 Attenuator).
Proof.
  repeat (split; [reflexivity|]).
  split.
  - intros w. unfold decode; simpl.
    rewrite !dependent_flag_layout, !raw_flag_layout. simpl. tauto.
  - exists 0x61. repeat split; try reflexivity; discriminate.
Qed.

(** C7. Decoding is a function of the 32-bit pattern and the family alone:
    equal words (even two integers with the same 32-bit pattern) and equal
    families give equal snapshots.  When the decoded [device_connected] is
    false, every other flag the family has is [Unknown], and the snapshot is
    the same whatever the remaining bits of the word are. *)
Theorem decode_pure_unknown_when_disconnected
    (w1 w2 : Z) (f1 f2 : Family)
    (Hw : as_uint w1 = as_uint w2) (Hf : f1 = f2) :
  decode w1 f1 = decode w2 f2
  /\ (device_connected (decode w1 f1) = false ->
      (forall fl, fl ∈ dependent_flags ->
         status_field (decode w1 f1) fl = (fun _ => Unknown) <$> status_mask f1 fl)
      /\ (forall fl b, status_field (decode w1 f1) fl <> Some (Known b))
      /\ decode w1 f1 = decode 0 f1).
Proof.
  subst f2. split.
  - rewrite <- (decode_as_uint f1 w1), <- (decode_as_uint f1 w2). now rewrite Hw.
  - simpl. rewrite flag_set_connected. intros Hc.
    assert (Hdep : forall fl, dependent_flag f1 fl w1
                              = (fun _ => Unknown) <$> status_mask f1 fl).
    { intros fl. rewrite dependent_flag_layout, status_mask_layout, Hc.
      now destruct (layout_bit f1 fl). }
    split; [|split].
    + intros fl Hfl. rewrite status_field_decode.
      rewrite bool_decide_eq_true_2 by assumption. apply Hdep.
    + intros fl b. rewrite status_field_decode.
      case_bool_decide; [|discriminate].
      rewrite Hdep. now destruct (status_mask f1 fl).
    + unfold decode. rewrite flag_set_connected, Hc, !Hdep.
      now destruct f1.
Qed.

Lemma decode_pure_unknown_when_disconnected_witness :
  as_uint 0x7E = as_uint (0x7E + 2 ^ 32)
  /\ device_connected (decode 0x7E Synthesizer) = false
  /\ decode 0x7E Synthesizer = decode (0x7E + 2 ^ 32) Synthesizer
  /\ pll_locked (decode 0x7E Synthesizer) = Some Unknown
  /\ decode 0x7E Synthesizer = decode 0 Synthesizer.
Proof.
  destruct (decode_pure_unknown_when_disconnected
              0x7E (0x7E + 2 ^ 32) Synthesizer Synthesizer eq_refl eq_refl)
    as [Heq Hdis].
  destruct (Hdis eq_refl) as (Hall & _ & Hzero).
  split; [reflexivity|]. split; [reflexivity|].
  split; [exact Heq|]. split; [|exact Hzero].
  apply (Hall PllLocked). unfold dependent_flags.
  rewrite !elem_of_cons. tauto.
Defined.

(** ** The mode word *)

(** C8. In the synthesizer mode word the sweep-control nibble (mask 0x0F,
    bits 0 to 3) and the pulse-modulation bits (mask 0x300, bits 8 and 9)
    are disjoint: for every mode word, writing the PWM bits leaves the sweep
    nibble as it was and writing the sweep nibble leaves the PWM bits as they
    were, while each write does store what it was given. *)
Theorem sweep_nibble_and_pwm_bits_disjoint (mode bits : Z) :
  LMS.MODE_SWEEP = 0x0F
  /\ LMS.MODE_SWEEP = Z.ones 4
  /\ LMS.PWM_MASK = 0x300
  /\ LMS.PWM_MASK = Z.shiftl (Z.ones 2) 8
  /\ LMS.PWM_MASK = Z.lor LMS.MODE_PWMON LMS.MODE_EXTPWM
  /\ Z.land LMS.MODE_SWEEP LMS.PWM_MASK = 0
  /\ mode_sweep_bits Synthesizer (set_pwm_bits mode bits)
     = mode_sweep_bits Synthesizer mode
  /\ mode_pwm_bits (set_sweep_bits mode bits) = mode_pwm_bits mode
  /\ mode_pwm_bits (set_pwm_bits mode bits) = Z.land bits LMS.PWM_MASK
  /\ mode_sweep_bits Synthesizer (set_sweep_bits mode bits)
     = Z.land bits LMS.MODE_SWEEP.
Proof.
  repeat (split; [reflexivity|]).
  unfold mode_sweep_bits, mode_pwm_bits, set_pwm_bits, set_sweep_bits; simpl.
  split; [apply update_field_frame; reflexivity|].
  split; [apply update_field_frame; reflexivity|].
  split; apply update_field_read.
Qed.

(** C10. The mode word is laid out per family: the attenuator keeps RF-on at
    bit 6 (mask 0x40) and a five-bit ramp-control field (mask 0x1F), the
    synthesizer and the generator keep RF-on at bit 4 (mask 0x10) and a
    four-bit sweep-control field (mask 0x0F); so some mode word reads as RF
    on with one family's mask and RF off with the other's. *)
Theorem mode_word_layout_depends_on_family :
  MODE_RFON Attenuator = 0x40 /\ MODE_RFON Attenuator = 2 ^ 6
  /\ MODE_SWEEP Attenuator = 0x1F /\ MODE_SWEEP Attenuator = Z.ones 5
  /\ MODE_RFON Synthesizer = 0x10 /\ MODE_RFON Synthesizer = 2 ^ 4
  /\ MODE_RFON Generator = 0x10
  /\ MODE_SWEEP Synthesizer = 0x0F /\ MODE_SWEEP Synthesizer = Z.ones 4
  /\ MODE_SWEEP Generator = 0x0F
  /\ (forall mode : Z,
        mode_rf_on Attenuator mode = Z.testbit mode 6
        /\ mode_rf_on Synthesizer mode = Z.testbit mode 4
        /\ mode_rf_on Generator mode = Z.testbit mode 4)
  /\ (exists mode : Z,
        mode_rf_on Synthesizer mode = true
        /\ mode_rf_on Generator mode = true
        /\ mode_rf_on Attenuator mode = false)
  /\ (exists mode : Z,
        mode_rf_on Attenuator mode = true
        /\ mode_rf_on Synthesizer mode = false
        /\ mode_rf_on Generator mode = false).
Proof.
  repeat (split; [reflexivity|]).
  split.
  - intros mode. unfold mode_rf_on.
    repeat split; [apply (flag_set_pow2 mode 6) | apply (flag_set_pow2 mode 4)
                  | apply (flag_set_pow2 mode 4)]; lia.
  - split; [exists 0x10 | exists 0x40]; repeat split.
Qed.

(** ** Status codes *)

Lemma as_int_negative_iff_msb (c : Z) :
  0 <= c < 2 ^ WORD_BITS -> (as_int c <? 0) = Z.testbit c (WORD_BITS - 1).
Proof.
  unfold as_int, WORD_BITS. intros Hc.
  change (32 - 1) with 31.
  rewrite Z.testbit_eqb by lia.
  destruct (Z_lt_ge_dec c (2 ^ 31)) as [Hlo|Hhi].
  - rewrite (Z.mod_small (c + 2 ^ 31)) by lia.
    rewrite Z.div_small, Z.mod_0_l by lia.
    destruct (Z.ltb_spec (c + 2 ^ 31 - 2 ^ 31) 0); [lia | reflexivity].
  - replace (c + 2 ^ 31) with (c - 2 ^ 31 + 1 * 2 ^ 32) by lia.
    rewrite Z.mod_add, Z.mod_small by lia.
    replace (c / 2 ^ 31) with 1
      by (apply Z.div_unique with (r := c - 2 ^ 31); lia).
    destruct (Z.ltb_spec (c - 2 ^ 31 - 2 ^ 31) 0); [reflexivity | lia].
Qed.

(** C9. [STATUS_OK] is exactly 0; every error code (bad parameter, bad I/O,
    device not ready, and feature not supported for attenuators) is a 32-bit
    value with bit 31 set; the codes of one header are pairwise distinct and
    each code has the same value in every header that defines it.  Hence a
    status is an error exactly when its most significant bit is set, that
    is, when it is negative as a signed 32-bit [LVSTATUS]. *)
Theorem status_codes_error_iff_msb (fam : Family) (s : Status) :
  status_code fam StOk = Some 0
  /\ NoDup (omap (status_code fam) all_statuses)
  /\ match status_code fam s with
     | Some c =>
         0 <= c < 2 ^ WORD_BITS
         /\ Z.testbit c 31 = is_error s
         /\ (as_int c <? 0) = is_error s
         /\ (c =? 0) = negb (is_error s)
         /\ (forall fam', status_code fam' s = Some c
                          \/ (status_code fam' s = None /\ s = StFeatureNotSupported))
     | None => s = StFeatureNotSupported /\ fam <> Attenuator
     end.
Proof.
  split; [now destruct fam|].
  split.
  - destruct fam; simpl; repeat (apply NoDup_cons; split;
      [rewrite ?elem_of_cons, elem_of_nil; unfold LMS.STATUS_OK, LSG.STATUS_OK,
         LDA.STATUS_OK, LMS.BAD_PARAMETER, LMS.BAD_HID_IO, LMS.DEVICE_NOT_READY,
         LSG.BAD_PARAMETER, LSG.BAD_HID_IO, LSG.DEVICE_NOT_READY,
         LDA.BAD_PARAMETER, LDA.BAD_HID_IO, LDA.DEVICE_NOT_READY,
         LDA.FEATURE_NOT_SUPPORTED; lia|]); apply NoDup_nil_2.
  - destruct fam, s; simpl;
      try (split; [reflexivity | discriminate]);
      (split; [unfold WORD_BITS; cbv; split; [discriminate | reflexivity]|]);
      (split; [reflexivity|]); (split; [reflexivity|]); (split; [reflexivity|]);
      intros fam'; destruct fam'; simpl; auto.
Qed.

(** ** Sessions: parameter bounds *)

Lemma out_of_bounds_true (s : Session) (p : Param) (v : Z) :
  v < bound_min s p \/ bound_max s p < v -> out_of_bounds s p v = true.
Proof.
  unfold out_of_bounds. intros [H|H].
  - apply orb_true_iff. left. now apply Z.ltb_lt.
  - apply orb_true_iff. right. now apply Z.ltb_lt.
Qed.

Lemma set_param_in_bounds (s : Session) (t : Transport) (p : Param) (v : Z) :
  sess_open s = true ->
  bound_min s p <= v <= bound_max s p ->
  (exchange t (CmdSetParam p v)).1 = true ->
  exists t', set_param p v s t = (Ok tt, with_cached p v s, t')
             /\ sent t' = CmdSetParam p v :: sent t
             /\ get_param p (with_cached p v s) = Ok v.
Proof.
  intros Hopen Hin Hex. unfold set_param, out_of_bounds. rewrite Hopen. simpl.
  destruct (Z.ltb_spec v (bound_min s p)); [lia|].
  destruct (Z.ltb_spec (bound_max s p) v); [lia|]. simpl.
  destruct (exchange t (CmdSetParam p v)) as [ok t'] eqn:E. simpl in Hex. subst ok.
  exists t'. split; [reflexivity|]. split.
  - unfold exchange in E. destruct (replies t); inversion E; reflexivity.
  - unfold get_param. simpl. rewrite Hopen. now rewrite decide_True.
Qed.

(** C3. For every open session and every value strictly outside the cached
    [min, max] of a parameter, the setter returns [BadParameter], hands
    nothing to the transport, and leaves the session (so the cached value)
    exactly as it was: the value is not clamped into range.  The same holds
    for an attenuation written into the profile. *)
Theorem set_param_outside_bounds_rejected
    (s : Session) (t : Transport) (p : Param) (v : Z)
    (Hopen : sess_open s = true)
    (Hout : v < bound_min s p \/ bound_max s p < v) :
  set_param p v s t = (Fail BadParameter, s, t)
  /\ sent (set_param p v s t).2 = sent t
  /\ get_param p (set_param p v s t).1.2 = Ok (cached s p)
  /\ (p = Level ->
      forall i, set_profile_element i v s t = (Fail BadParameter, s, t)).
Proof.
  assert (Hset : set_param p v s t = (Fail BadParameter, s, t)).
  { unfold set_param. rewrite Hopen. simpl.
    now rewrite (out_of_bounds_true s p v Hout). }
  rewrite Hset. simpl. split; [reflexivity|]. split; [reflexivity|].
  split; [unfold get_param; now rewrite Hopen|].
  intros -> i. unfold set_profile_element. rewrite Hopen. simpl.
  destruct (index_in_range i); simpl; [|reflexivity].
  now rewrite (out_of_bounds_true s Level v Hout).
Qed.

(** ** Sequencer *)



Lemma stop_exchange_failed (sq : Sequencer) (t : Transport) :
  (exchange t CmdStop).1 = false ->
  stop sq t = (Fail IoError, sq, (exchange t CmdStop).2).
Proof.
  unfold stop. destruct (exchange t CmdStop) as [ok t']. simpl. now intros ->.
Qed.





Lemma set_param_outside_bounds_rejected_witness :
  sess_open demo_session = true
  /\ bound_max demo_session Level < 101
  /\ set_param Level 101 demo_session quiet_transport
     = (Fail BadParameter, demo_session, quiet_transport)
  /\ get_param Level
       (set_param Level 101 demo_session quiet_transport).1.2 = Ok 10
  /\ set_profile_element 1 101 demo_session quiet_transport
     = (Fail BadParameter, demo_session, quiet_transport).
Proof.
  destruct (set_param_outside_bounds_rejected
              demo_session quiet_transport Level 101 eq_refl
              (or_intror eq_refl)) as (Hset & _ & Hget & Hprof).
  split; [reflexivity|]. split; [reflexivity|].
  split; [exact Hset|]. split; [exact Hget|].
  exact (Hprof eq_refl 1).
Defined.

(** ** Registry: one open session per device *)

Lemma holders_app (dev : Z) (l : list Session) (s : Session) :
  holders dev (l ++ [s])
  = (holders dev l + if holds dev s then 1 else 0)%nat.
Proof.
  induction l as [|a l IH]; simpl.
  - now destruct (holds dev s).
  - rewrite IH. now destruct (holds dev a).
Qed.

Lemma holders_insert (dev : Z) (l : list Session) (n : nat) (s s' : Session) :
  l !! n = Some s ->
  (holders dev (<[n := s']> l) + (if holds dev s then 1 else 0)
   = holders dev l + (if holds dev s' then 1 else 0))%nat.
Proof.
  revert n. induction l as [|a l IH]; intros [|n] Hn; simpl in *; try discriminate.
  - injection Hn as ->. destruct (holds dev s), (holds dev s'); lia.
  - specialize (IH n Hn). destruct (holds dev a); lia.
Qed.

Lemma open_device_inv reg hw dev reg1 s1 :
  open_device reg hw dev = Ok (reg1, s1) ->
  exists r, reg !! dev = Some r /\ connected r = true /\ opened r = false
            /\ reg1 = <[dev := set_opened true r]> reg
            /\ s1 = fresh_session dev r hw.
Proof.
  unfold open_device. intros H.
  destruct (reg !! dev) as [r|]; [|discriminate].
  destruct (connected r) eqn:Hc, (opened r) eqn:Ho; simpl in H; try discriminate.
  injection H as <- <-. exists r. auto.
Qed.

Lemma holds_fresh (dev dev' : Z) r hw :
  holds dev' (fresh_session dev r hw) = bool_decide (dev = dev').
Proof. reflexivity. Qed.

Lemma exclusive_step (op : HostOp) (sys : System) :
  exclusive sys -> exclusive (host_step op sys).
Proof.
  intros Hex. destruct op as [dev hw | n]; simpl.
  - destruct (open_device (registry sys) hw dev) as [[reg1 s1]|e] eqn:E; [|exact Hex].
    apply open_device_inv in E as (r & Hr & _ & Ho & -> & ->).
    intros dev'. simpl. rewrite holders_app, holds_fresh.
    specialize (Hex dev'). unfold is_opened in *.
    destruct (decide (dev = dev')) as [<-|Hne].
    + rewrite bool_decide_eq_true_2 by reflexivity.
      rewrite lookup_insert_eq. simpl. rewrite Hr, Ho in Hex. lia.
    + rewrite bool_decide_eq_false_2 by assumption.
      rewrite lookup_insert_ne by assumption. lia.
  - destruct (sessions sys !! n) as [s|] eqn:En; [|exact Hex].
    unfold close_device. destruct (sess_open s) eqn:Hs.
    + intros dev'. simpl.
      pose proof (holders_insert dev' _ _ _ (with_open false s) En) as Hins.
      specialize (Hex dev'). unfold is_opened in *.
      unfold holds in Hins at 2. simpl in Hins.
      unfold holds in Hins. rewrite Hs in Hins. simpl in Hins.
      destruct (decide (sess_dev s = dev')) as [<-|Hne].
      * rewrite bool_decide_eq_true_2 in Hins by reflexivity.
        destruct (registry sys !! sess_dev s) as [r|]; simpl in Hex;
          [destruct (opened r)|];
          match goal with |- (_ <= if ?b then _ else _)%nat => destruct b end; lia.
      * rewrite bool_decide_eq_false_2 in Hins by assumption.
        rewrite lookup_alter_ne by assumption. lia.
    + simpl. rewrite list_insert_id by assumption. now destruct sys.
Qed.

Lemma exclusive_run (ops : list HostOp) (sys : System) :
  exclusive sys -> exclusive (host_run ops sys).
Proof.
  revert sys. induction ops as [|op ops IH]; intros sys Hex; [exact Hex|].
  simpl. apply IH, exclusive_step, Hex.
Qed.

Lemma exclusive_at_most_one (sys : System) (dev : Z) :
  exclusive sys -> (holders dev (sessions sys) <= 1)%nat.
Proof.
  intros Hex. specialize (Hex dev).
  destruct (is_opened (registry sys) dev); lia.
Qed.

(** C4. At most one session holds a device at a time.  Once [open] has
    succeeded on a device, a second [open] of it fails with [DeviceNotReady]
    and changes nothing (the first session keeps the handle, nothing is
    queued); after that session is closed, [open] of the same device
    succeeds again.  Along any run of opens and closes started without
    sessions, no device ever has two holders. *)
Theorem open_is_exclusive
    (reg : gmap Z DeviceRecord) (hw : HardwareFacts) (dev : Z)
    (reg1 : gmap Z DeviceRecord) (s1 : Session)
    (Hopen : open_device reg hw dev = Ok (reg1, s1)) :
  (sess_open s1 = true /\ sess_dev s1 = dev /\ is_opened reg1 dev = true)
  /\ (forall hw', open_device reg1 hw' dev = Fail DeviceNotReady)
  /\ (forall hw', host_step (HostOpen dev hw') (mkSystem reg1 [s1])
                  = mkSystem reg1 [s1])
  /\ sess_open (close_device reg1 s1).2 = false
  /\ is_opened (close_device reg1 s1).1 dev = false
  /\ (forall hw', exists reg3 s3,
        open_device (close_device reg1 s1).1 hw' dev = Ok (reg3, s3)
        /\ sess_open s3 = true /\ is_opened reg3 dev = true)
  /\ (forall ops dev',
        (holders dev' (sessions (host_run ops (mkSystem reg []))) <= 1)%nat).
Proof.
  apply open_device_inv in Hopen as (r & Hr & Hc & Ho & -> & ->).
  assert (Hsecond : forall hw',
             open_device (<[dev := set_opened true r]> reg) hw' dev
             = Fail DeviceNotReady).
  { intros hw'. unfold open_device. rewrite lookup_insert_eq. simpl.
    now rewrite Hc. }
  split.
  { repeat split. unfold is_opened. now rewrite lookup_insert_eq. }
  split; [exact Hsecond|].
  split; [intros hw'; simpl; now rewrite Hsecond|].
  unfold close_device. simpl.
  split; [reflexivity|].
  split.
  { unfold is_opened. now rewrite lookup_alter_eq, lookup_insert_eq. }
  split.
  - intros hw'. unfold open_device.
    rewrite lookup_alter_eq, lookup_insert_eq. simpl. rewrite Hc. simpl.
    eexists _, _. split; [reflexivity|]. split; [reflexivity|].
    unfold is_opened. now rewrite lookup_insert_eq.
  - intros ops dev'. apply exclusive_at_most_one, exclusive_run.
    intros d. simpl. lia.
Qed.

Lemma open_is_exclusive_witness :
  open_device demo_registry demo_hw 1
  = Ok (<[1 := set_opened true demo_record]> demo_registry, demo_session)
  /\ open_device (<[1 := set_opened true demo_record]> demo_registry) demo_hw 1
     = Fail DeviceNotReady
  /\ exists reg3 s3,
       open_device
         (close_device (<[1 := set_opened true demo_record]> demo_registry)
                       demo_session).1 demo_hw 1 = Ok (reg3, s3).
Proof.
  assert (H : open_device demo_registry demo_hw 1
              = Ok (<[1 := set_opened true demo_record]> demo_registry,
                    demo_session)) by reflexivity.
  destruct (open_is_exclusive _ _ _ _ _ H) as (_ & Hsecond & _ & _ & _ & Hre & _).
  split; [exact H|]. split; [exact (Hsecond demo_hw)|].
  destruct (Hre demo_hw) as (reg3 & s3 & Hok & _).
  exists reg3, s3. exact Hok.
Defined.

(** ** Attenuator profile *)

Lemma index_in_range_spec (i : Z) :
  index_in_range i = true <-> 0 <= i < LDA.PROFILE_MAX.
Proof.
  unfold index_in_range. rewrite andb_true_iff, Z.leb_le, Z.ltb_lt. tauto.
Qed.

Lemma profile_wf_fresh dev r hw : profile_wf (fresh_session dev r hw).
Proof.
  split; simpl.
  - apply length_resize.
  - unfold clamp_count, LDA.PROFILE_MAX. lia.
Qed.

Lemma set_param_profile p v s t :
  profile (set_param p v s t).1.2 = profile s
  /\ profile_count (set_param p v s t).1.2 = profile_count s.
Proof.
  unfold set_param.
  destruct (negb (sess_open s)); [now split|].
  destruct (out_of_bounds s p v); [now split|].
  destruct (exchange t (CmdSetParam p v)) as [[] t']; now split.
Qed.

Lemma set_profile_element_wf i v s t :
  profile_wf s -> profile_wf (set_profile_element i v s t).1.2.
Proof.
  intros [Hlen Hcnt]. unfold set_profile_element.
  destruct (negb (sess_open s)); [now split|].
  destruct (index_in_range i) eqn:Hi; simpl; [|now split].
  destruct (out_of_bounds s Level v); [now split|].
  destruct (exchange t (CmdSetProfileElement i v)) as [[] t']; [|now split].
  apply index_in_range_spec in Hi.
  split; simpl; [now rewrite length_insert | lia].
Qed.

Lemma set_profile_count_wf n s t :
  profile_wf s -> profile_wf (set_profile_count n s t).1.2.
Proof.
  intros [Hlen Hcnt]. unfold set_profile_count.
  destruct (negb (sess_open s)); [now split|].
  destruct (n <? 0); [now split|].
  destruct (exchange t (CmdSetProfileCount (clamp_count n))) as [[] t'];
    [|now split].
  split; simpl; [assumption | unfold clamp_count, LDA.PROFILE_MAX; lia].
Qed.

Lemma session_step_wf op s t :
  profile_wf s -> profile_wf (session_step op (s, t)).1.
Proof.
  intros Hwf. destruct op as [p v | i v | n]; simpl.
  - pose proof (set_param_profile p v s t) as [Hp Hc].
    destruct (set_param p v s t) as [[r s'] t']. simpl in *.
    destruct Hwf as [Hlen Hcnt]. split; [now rewrite Hp | now rewrite Hc].
  - pose proof (set_profile_element_wf i v s t Hwf) as H.
    now destruct (set_profile_element i v s t) as [[r s'] t'].
  - pose proof (set_profile_count_wf n s t Hwf) as H.
    now destruct (set_profile_count n s t) as [[r s'] t'].
Qed.

Lemma session_run_wf ops s t :
  profile_wf s -> profile_wf (session_run ops (s, t)).1.
Proof.
  revert s t. induction ops as [|op ops IH]; intros s t Hwf; [exact Hwf|].
  change (session_run (op :: ops) (s, t))
    with (session_run ops (session_step op (s, t))).
  pose proof (session_step_wf op s t Hwf) as H.
  destruct (session_step op (s, t)) as [s' t']. now apply IH.
Qed.

Lemma set_profile_element_readback i v s t s' t' :
  profile_wf s ->
  set_profile_element i v s t = (Ok tt, s', t') ->
  get_profile_element i s' = Ok v
  /\ profile_count s' = Z.max (profile_count s) (i + 1).
Proof.
  intros [Hlen Hcnt]. unfold set_profile_element.
  destruct (sess_open s) eqn:Hopen; simpl; [|discriminate].
  destruct (index_in_range i) eqn:Hi; simpl; [|discriminate].
  destruct (out_of_bounds s Level v); [discriminate|].
  destruct (exchange t (CmdSetProfileElement i v)) as [[] t'']; [|discriminate].
  intros [= <- <-]. split; [|reflexivity].
  unfold get_profile_element. simpl. rewrite Hopen, Hi. simpl.
  apply index_in_range_spec in Hi.
  rewrite list_lookup_insert_eq; [reflexivity|].
  rewrite Hlen. unfold LDA.PROFILE_MAX in *. lia.
Qed.

(** C5. On an open attenuator session whose profile has its
    [LDA.PROFILE_MAX] slots: writing [v] at an index [i < profile_count]
    succeeds (for an attenuation within bounds and a transport that
    answers) and reading [profile[i]] then returns [v]; every successful
    write reads back; [profile_count] never exceeds 100, whatever
    operations run on the session and from the moment it is opened; and a
    write at any index above 99 fails with [BadParameter] and leaves the
    session, profile included, unchanged. *)
Theorem profile_write_read_and_bounds
    (s : Session) (t : Transport) (i v : Z)
    (Hopen : sess_open s = true) (Hwf : profile_wf s) :
  (0 <= i < profile_count s ->
   bound_min s Level <= v <= bound_max s Level ->
   (exchange t (CmdSetProfileElement i v)).1 = true ->
   exists s' t',
     set_profile_element i v s t = (Ok tt, s', t')
     /\ get_profile_element i s' = Ok v
     /\ profile_count s' = profile_count s)
  /\ (forall s' t',
        set_profile_element i v s t = (Ok tt, s', t') ->
        get_profile_element i s' = Ok v)
  /\ (forall ops, profile_count (session_run ops (s, t)).1 <= 100)
  /\ (forall dev r hw ops t0,
        profile_count (session_run ops (fresh_session dev r hw, t0)).1 <= 100)
  /\ (forall n, profile_count (set_profile_count n s t).1.2 <= 100)
  /\ (forall j, 99 < j ->
        set_profile_element j v s t = (Fail BadParameter, s, t)
        /\ profile (set_profile_element j v s t).1.2 = profile s).
Proof.
  split.
  { intros Hi Hv Hex.
    assert (Hidx : index_in_range i = true).
    { apply index_in_range_spec. destruct Hwf as [_ Hcnt]. lia. }
    assert (Hset : set_profile_element i v s t
                   = (Ok tt,
                      with_profile (<[Z.to_nat i := v]> (profile s))
                                   (Z.max (profile_count s) (i + 1)) s,
                      (exchange t (CmdSetProfileElement i v)).2)).
    { unfold set_profile_element, out_of_bounds. rewrite Hopen, Hidx. simpl.
      destruct (Z.ltb_spec v (bound_min s Level)); [lia|].
      destruct (Z.ltb_spec (bound_max s Level) v); [lia|]. simpl.
      destruct (exchange t (CmdSetProfileElement i v)) as [ok t'].
      simpl in Hex. now subst ok. }
    eexists _, _. split; [exact Hset|].
    destruct (set_profile_element_readback _ _ _ _ _ _ Hwf Hset) as [Hget Hc].
    split; [exact Hget|]. rewrite Hc. lia. }
  split.
  { intros s' t' Hset.
    now destruct (set_profile_element_readback _ _ _ _ _ _ Hwf Hset). }
  split.
  { intros ops. pose proof (session_run_wf ops s t Hwf) as [_ H].
    unfold LDA.PROFILE_MAX in H. lia. }
  split.
  { intros dev r hw ops t0.
    pose proof (session_run_wf ops _ t0 (profile_wf_fresh dev r hw)) as [_ H].
    unfold LDA.PROFILE_MAX in H. lia. }
  split.
  { intros n. pose proof (set_profile_count_wf n s t Hwf) as [_ H].
    unfold LDA.PROFILE_MAX in H. lia. }
  intros j Hj.
  assert (Hidx : index_in_range j = false).
  { unfold index_in_range, LDA.PROFILE_MAX.
    destruct (Z.ltb_spec j 100); [lia | apply andb_false_r]. }
  unfold set_profile_element. rewrite Hopen, Hidx. now split.
Qed.

Lemma profile_write_read_and_bounds_witness :
  sess_open demo_session = true
  /\ profile_wf demo_session
  /\ 0 <= 1 < profile_count demo_session
  /\ (exists s' t',
        set_profile_element 1 55 demo_session quiet_transport = (Ok tt, s', t')
        /\ get_profile_element 1 s' = Ok 55
        /\ profile_count s' = 3)
  /\ set_profile_element 100 55 demo_session quiet_transport
     = (Fail BadParameter, demo_session, quiet_transport).
Proof.
  pose proof (profile_wf_fresh 1 demo_record demo_hw) as Hwf.
  destruct (profile_write_read_and_bounds
              demo_session quiet_transport 1 55 eq_refl Hwf)
    as (Hwrite & _ & _ & _ & _ & Hbeyond).
  split; [reflexivity|]. split; [exact Hwf|].
  split; [split; [discriminate | reflexivity]|].
  split.
  - apply Hwrite.
    + split; [discriminate | reflexivity].
    + split; discriminate.
    + reflexivity.
  - apply (Hbeyond 100). reflexivity.
Defined.

(** ** Worked examples *)

Example decode_synthesizer_0x61 :
  decode 0x61 Synthesizer
  = {| device_connected := true;
       device_opened := Some (Known false);
       sweep_or_ramp_active := Some (Known false);
       sweep_or_ramp_direction_up := Some (Known false);
       repeat_enabled := Some (Known false);
       bidirectional_enabled := Some (Known true);
       pll_locked := Some (Known true);
       fast_pulse_available := Some (Known false);
       profile_active := None |}.
Proof. reflexivity. Qed.

Example decode_attenuator_disconnected :
  decode 0x7E Attenuator
  = {| device_connected := false;
       device_opened := Some Unknown;
       sweep_or_ramp_active := Some Unknown;
       sweep_or_ramp_direction_up := Some Unknown;
       repeat_enabled := Some Unknown;
       bidirectional_enabled := Some Unknown;
       pll_locked := None;
       fast_pulse_available := None;
       profile_active := Some Unknown |}.
Proof. reflexivity. Qed.

Example invalid_devid_is_msb :
  raw_flag Generator InvalidDevId 0x80000000 = Some true
  /\ raw_flag Generator InvalidDevId (as_int 0x80000000) = Some true
  /\ raw_flag Generator InvalidDevId 0x7FFFFFFF = Some false.
Proof. repeat split. Qed.

Example bad_parameter_as_int : as_int LMS.BAD_PARAMETER = -2147418112.
Proof. reflexivity. Qed.

Example pwm_update_keeps_sweep : set_pwm_bits 0x3F 0x100 = 0x13F.
Proof. reflexivity. Qed.

Example sweep_update_keeps_pwm : set_sweep_bits 0x31F 0x2 = 0x312.
Proof. reflexivity. Qed.

Example set_param_clamps_nothing :
  (set_param Level 250 demo_session quiet_transport).1.1 = Fail BadParameter
  /\ cached (set_param Level 250 demo_session quiet_transport).1.2 Level = 10
  /\ (set_param Level 40 demo_session quiet_transport).1.1 = Ok tt
  /\ cached (set_param Level 40 demo_session quiet_transport).1.2 Level = 40
  /\ sent (set_param Level 40 demo_session quiet_transport).2
     = [CmdSetParam Level 40].
Proof. repeat split. Qed.

Example open_twice_then_close :
  let sys := host_run [HostOpen 1 demo_hw; HostOpen 1 demo_hw]
                      (mkSystem demo_registry []) in
  length (sessions sys) = 1%nat
  /\ holders 1 (sessions sys) = 1%nat
  /\ holders 1 (sessions (host_run [HostClose 0] sys)) = 0%nat
  /\ holders 1 (sessions (host_run [HostClose 0; HostOpen 1 demo_hw] sys)) = 1%nat.
Proof. repeat split. Qed.

Example sweep_runs_then_stops :
  let idle := {| seq_kind := Sweep; seq_state := Idle; seq_config := None |} in
  seq_state (seq_run [OpConfigure demo_config false] (idle, quiet_transport)).1
    = Armed
  /\ seq_state (seq_run [OpConfigure demo_config false; OpStart]
                        (idle, quiet_transport)).1 = Running
  /\ seq_state (seq_run [OpConfigure demo_config false; OpStart; OpStop]
                        (idle, quiet_transport)).1 = Idle
  /\ sent (seq_run [OpConfigure demo_config false; OpStart; OpStop; OpStop]
                   (idle, quiet_transport)).2 = [CmdStop; CmdStop; CmdGo].
Proof. repeat split. Qed.

Example profile_three_points :
  let st := session_run [SetProfileElement 3 30; SetProfileCount 500]
                        (demo_session, quiet_transport) in
  get_profile_element 3 st.1 = Ok 30
  /\ get_profile_element 2 st.1 = Ok 20
  /\ get_profile_count st.1 = Ok 100.
Proof. repeat split. Qed.

(** ** Further properties of the header constants *)

Lemma layout_bit_inj fam fl1 fl2 k :
  layout_bit fam fl1 = Some k -> layout_bit fam fl2 = Some k -> fl1 = fl2.
Proof.
  destruct fam, fl1; simpl; intros [= <-]; destruct fl2; simpl;
    intros [=]; reflexivity.
Qed.

Lemma status_mask_bit fam fl m :
  status_mask fam fl = Some m ->
  exists k, layout_bit fam fl = Some k /\ m = 2 ^ k /\ 0 <= k < WORD_BITS.
Proof.
  rewrite status_mask_layout.
  destruct (layout_bit fam fl) as [k|] eqn:E; simpl; intros [= <-].
  exists k. split; [reflexivity|]. split; [reflexivity|].
  eapply layout_bit_in_word; eassumption.
Qed.

Lemma testbit_set_bits_pow2 w k n :
  0 <= k -> 0 <= n ->
  Z.testbit (set_bits w (2 ^ k)) n = Z.testbit w n || (k =? n).
Proof.
  intros Hk Hn. unfold set_bits.
  now rewrite Z.lor_spec, Z.pow2_bits_eqb by lia.
Qed.

Lemma testbit_clear_bits_pow2 w k n :
  0 <= k -> 0 <= n ->
  Z.testbit (clear_bits w (2 ^ k)) n = Z.testbit w n && negb (k =? n).
Proof.
  intros Hk Hn. unfold clear_bits.
  now rewrite Z.land_spec, Z.lnot_spec, Z.pow2_bits_eqb by lia.
Qed.

(** X1. Within one header, raising or clearing one status flag with its mask
    changes that flag and no other: every other flag of the family reads as
    before, for every word. *)
Theorem status_flags_independent
    (fam : Family) (fl1 fl2 : Flag) (m1 : Z) (w : Z)
    (Hm1 : status_mask fam fl1 = Some m1) (Hne : fl1 <> fl2) :
  raw_flag fam fl1 (set_bits w m1) = Some true
  /\ raw_flag fam fl1 (clear_bits w m1) = Some false
  /\ raw_flag fam fl2 (set_bits w m1) = raw_flag fam fl2 w
  /\ raw_flag fam fl2 (clear_bits w m1) = raw_flag fam fl2 w.
Proof.
  destruct (status_mask_bit _ _ _ Hm1) as (k1 & Hk1 & -> & Hr1).
  rewrite !raw_flag_layout, Hk1. simpl.
  rewrite testbit_set_bits_pow2, testbit_clear_bits_pow2 by lia.
  rewrite Z.eqb_refl, orb_true_r, andb_false_r.
  split; [reflexivity|]. split; [reflexivity|].
  destruct (layout_bit fam fl2) as [k2|] eqn:Hk2; simpl; [|now split].
  pose proof (layout_bit_in_word _ _ _ Hk2) as Hr2.
  rewrite testbit_set_bits_pow2, testbit_clear_bits_pow2 by lia.
  destruct (Z.eqb_spec k1 k2) as [->|_].
  - exfalso. apply Hne. eapply layout_bit_inj; eassumption.
  - now rewrite orb_false_r, andb_true_r.
Qed.

Lemma status_flags_independent_witness :
  raw_flag Attenuator ProfileActive (set_bits 0x25 LDA.PROFILE_ACTIVE) = Some true
  /\ raw_flag Attenuator Bidirectional (set_bits 0x25 LDA.PROFILE_ACTIVE)
     = raw_flag Attenuator Bidirectional 0x25
  /\ raw_flag Attenuator Bidirectional (clear_bits 0x25 LDA.PROFILE_ACTIVE)
     = raw_flag Attenuator Bidirectional 0x25.
Proof.
  assert (Hne : ProfileActive <> Bidirectional) by discriminate.
  destruct (status_flags_independent
              Attenuator ProfileActive Bidirectional LDA.PROFILE_ACTIVE 0x25
              eq_refl Hne) as (H1 & _ & H3 & H4).
  split; [exact H1|]. split; [exact H3 | exact H4].
Defined.

Lemma testbit_status_word fam fl fls k :
  layout_bit fam fl = Some k ->
  Z.testbit (status_word fam fls) k = bool_decide (fl ∈ fls).
Proof.
  intros Hk. pose proof (layout_bit_in_word _ _ _ Hk) as Hr.
  induction fls as [|a fls IH].
  - unfold status_word. simpl foldr. rewrite Z.bits_0. symmetry.
    apply bool_decide_eq_false_2. apply not_elem_of_nil.
  - change (status_word fam (a :: fls))
      with (set_bits (status_word fam fls) (default 0 (status_mask fam a))).
    destruct (status_mask fam a) as [m|] eqn:Ea.
    + destruct (status_mask_bit _ _ _ Ea) as (ka & Ha & -> & Hra).
      change (default 0 (Some (2 ^ ka))) with (2 ^ ka).
      rewrite testbit_set_bits_pow2, IH by lia.
      destruct (Z.eqb_spec ka k) as [->|Hk'].
      * rewrite orb_true_r. symmetry. apply bool_decide_eq_true_2.
        rewrite (layout_bit_inj _ _ _ _ Hk Ha). rewrite elem_of_cons; now left.
      * rewrite orb_false_r. apply bool_decide_ext. rewrite elem_of_cons.
        split; [tauto|]. intros [->|H]; [congruence | exact H].
    + change (default 0 None) with 0. unfold set_bits. rewrite Z.lor_0_r, IH.
      assert (Hna : layout_bit fam a = None).
      { rewrite status_mask_layout in Ea. now destruct (layout_bit fam a). }
      apply bool_decide_ext. rewrite elem_of_cons.
      split; [tauto|]. intros [->|H]; [congruence | exact H].
Qed.

Lemma status_word_range fam fls : 0 <= status_word fam fls < 2 ^ WORD_BITS.
Proof.
  induction fls as [|a fls IH]; simpl; [unfold WORD_BITS; lia|].
  assert (Hm : 0 <= default 0 (status_mask fam a) < 2 ^ WORD_BITS).
  { destruct (status_mask fam a) as [m|] eqn:E; simpl; [|unfold WORD_BITS; lia].
    destruct (status_mask_bit _ _ _ E) as (k & _ & -> & Hk).
    split; [apply Z.pow_nonneg; lia | apply Z.pow_lt_mono_r; unfold WORD_BITS in *; lia]. }
  unfold set_bits. split; [apply Z.lor_nonneg; lia|].
  destruct (Z.eq_dec (Z.lor (status_word fam fls) (default 0 (status_mask fam a))) 0)
    as [->|Hnz]; [unfold WORD_BITS; lia|].
  apply Z.log2_lt_pow2; [pose proof (proj2 (Z.lor_nonneg _ _) (conj (proj1 IH) (proj1 Hm))); lia|].
  rewrite Z.log2_lor by lia.
  destruct (Z.eq_dec (status_word fam fls) 0) as [E1|E1];
    destruct (Z.eq_dec (default 0 (status_mask fam a)) 0) as [E2|E2];
    rewrite ?E1, ?E2 in *; simpl in *; try (exfalso; apply Hnz; reflexivity).
  - rewrite Z.max_r by apply Z.log2_nonneg. apply Z.log2_lt_pow2; lia.
  - rewrite Z.max_l by apply Z.log2_nonneg. apply Z.log2_lt_pow2; lia.
  - apply Z.max_lub_lt; apply Z.log2_lt_pow2; lia.
Qed.

(** X2. A status word built by or-ing the masks of a list of flags reads back
    exactly that list: each flag the header defines tests as set if and only
    if it is in the list, and the word fits in 32 bits. *)
Theorem status_word_round_trip (fam : Family) (fls : list Flag) (fl : Flag) :
  raw_flag fam fl (status_word fam fls)
  = (fun _ => bool_decide (fl ∈ fls)) <$> status_mask fam fl
  /\ 0 <= status_word fam fls < 2 ^ WORD_BITS.
Proof.
  split; [|apply status_word_range].
  rewrite raw_flag_layout, status_mask_layout.
  destruct (layout_bit fam fl) as [k|] eqn:Hk; simpl; [|reflexivity].
  f_equal. now apply testbit_status_word.
Qed.

(** *** Signed and unsigned readings *)

Lemma as_uint_as_int (z : Z) : as_uint (as_int z) = as_uint z.
Proof.
  unfold as_uint, as_int, WORD_BITS. change (32 - 1) with 31.
  rewrite Zminus_mod_idemp_l. f_equal. lia.
Qed.

Lemma as_int_as_uint (z : Z) : as_int (as_uint z) = as_int z.
Proof.
  unfold as_uint, as_int, WORD_BITS. change (32 - 1) with 31.
  now rewrite Zplus_mod_idemp_l.
Qed.

Lemma as_uint_range (z : Z) : 0 <= as_uint z < 2 ^ WORD_BITS.
Proof. unfold as_uint, WORD_BITS. apply Z.mod_pos_bound. lia. Qed.

Lemma as_int_range (z : Z) :
  - 2 ^ (WORD_BITS - 1) <= as_int z < 2 ^ (WORD_BITS - 1).
Proof.
  unfold as_int, WORD_BITS. change (32 - 1) with 31.
  pose proof (Z.mod_pos_bound (z + 2 ^ 31) (2 ^ 32)). lia.
Qed.

Lemma testbit_as_int w k :
  0 <= k < WORD_BITS -> Z.testbit (as_int w) k = Z.testbit w k.
Proof.
  intros Hk. rewrite <- (testbit_as_uint (as_int w)) by assumption.
  rewrite as_uint_as_int. now apply testbit_as_uint.
Qed.

(** X3. [fnLMS_GetDeviceStatus] and [fnLSG_GetDeviceStatus] return the status
    word as an [int] while the masks are unsigned constants.  For every word
    and every flag of every header, the test gives the same answer on the
    signed reading, on the unsigned 32-bit pattern and on the word itself;
    and the [int] is negative exactly when [INVALID_DEVID] is set. *)
Theorem status_tests_ignore_signedness (fam : Family) (fl : Flag) (w : Z) :
  raw_flag fam fl (as_int w) = raw_flag fam fl w
  /\ raw_flag fam fl (as_uint w) = raw_flag fam fl w
  /\ raw_flag fam InvalidDevId w = Some (as_int w <? 0).
Proof.
  split; [|split; [apply raw_flag_as_uint|]].
  - rewrite !raw_flag_layout.
    destruct (layout_bit fam fl) as [k|] eqn:E; simpl; [|reflexivity].
    f_equal. apply testbit_as_int. eapply layout_bit_in_word; eassumption.
  - rewrite <- (as_int_as_uint w).
    rewrite as_int_negative_iff_msb by apply as_uint_range.
    rewrite testbit_as_uint by (unfold WORD_BITS; lia).
    rewrite raw_flag_layout. now destruct fam.
Qed.

Lemma status_codes_range (fam : Family) (s : Status) :
  match status_code fam s with
  | Some c => 0 <= c < 2 ^ WORD_BITS
  | None => True
  end.
Proof.
  destruct fam, s; simpl; try exact I; unfold WORD_BITS; cbv;
    (split; [discriminate | reflexivity]).
Qed.

(** X4. An [LVSTATUS] is an [int], the codes are unsigned constants.  Stored in
    an [int] and converted back, every code of every header is recovered
    unchanged, the [int] lies in the signed 32-bit range, and two statuses
    with the same [int] are the same status: a returned [LVSTATUS] names its
    status. *)
Theorem lvstatus_int_round_trip
    (fam fam' : Family) (s s' : Status) (c c' : Z)
    (Hc : status_code fam s = Some c) (Hc' : status_code fam' s' = Some c') :
  as_uint (as_int c) = c
  /\ - 2 ^ 31 <= as_int c < 2 ^ 31
  /\ (as_int c = as_int c' -> s = s')
  /\ (as_int c = 0 <-> s = StOk).
Proof.
  assert (Hr : forall f t d, status_code f t = Some d -> 0 <= d < 2 ^ WORD_BITS).
  { intros f t d H. pose proof (status_codes_range f t) as Hm.
    now rewrite H in Hm. }
  assert (Hback : forall d, 0 <= d < 2 ^ WORD_BITS -> as_uint (as_int d) = d).
  { intros d Hd. rewrite as_uint_as_int. unfold as_uint. now apply Z.mod_small. }
  split; [apply Hback; eauto|].
  split; [apply (as_int_range c)|].
  split.
  - intros Heq.
    assert (Hcc : c = c').
    { rewrite <- (Hback c), <- (Hback c') by eauto. now rewrite Heq. }
    subst c'. destruct fam, fam', s, s'; simpl in Hc, Hc';
      try reflexivity; try discriminate;
      exfalso; rewrite <- Hc' in Hc; cbv in Hc; congruence.
  - split.
    + intros H0.
      assert (c = 0).
      { rewrite <- (Hback c) by eauto. now rewrite H0. }
      subst c. destruct fam, s; simpl in Hc; try reflexivity;
        try discriminate; exfalso; cbv in Hc; congruence.
    + intros ->. destruct fam; simpl in Hc; injection Hc as <-; reflexivity.
Qed.

Lemma lvstatus_int_round_trip_witness :
  status_code Attenuator StFeatureNotSupported = Some 0x80040000
  /\ status_code Synthesizer StBadIo = Some 0x80020000
  /\ as_uint (as_int 0x80040000) = 0x80040000
  /\ - 2 ^ 31 <= as_int 0x80040000 < 2 ^ 31.
Proof.
  destruct (lvstatus_int_round_trip
              Attenuator Synthesizer StFeatureNotSupported StBadIo
              0x80040000 0x80020000 eq_refl eq_refl) as (H1 & H2 & _ & _).
  split; [reflexivity|]. split; [reflexivity|].
  split; [exact H1 | exact H2].
Defined.

(** *** Across the headers *)

(** X5. Whenever two headers both define a public flag of the status word they
    give it the same mask, so code testing that flag is right for either
    family; only the two DLL-internal flags ([DEV_LOCKED], [DEV_RDTHREAD])
    sit at different bits in vnx_fmsynth.h and vnx_fsynsth.h. *)
Theorem public_flags_agree_across_headers
    (fam1 fam2 : Family) (fl : Flag) (m1 m2 : Z)
    (H1 : status_mask fam1 fl = Some m1) (H2 : status_mask fam2 fl = Some m2)
    (Hpub : fl <> DevLocked /\ fl <> DevRdThread) :
  m1 = m2
  /\ (forall w, raw_flag fam1 fl w = raw_flag fam2 fl w)
  /\ status_mask Synthesizer DevLocked <> status_mask Generator DevLocked
  /\ status_mask Synthesizer DevRdThread <> status_mask Generator DevRdThread.
Proof.
  destruct Hpub as [Hl Hr].
  assert (Hm : m1 = m2).
  { destruct fam1, fam2, fl; simpl in H1, H2; try discriminate;
      try (exfalso; apply Hl; reflexivity); try (exfalso; apply Hr; reflexivity);
      injection H1 as <-; injection H2 as <-; reflexivity. }
  split; [exact Hm|]. split.
  - intros w. unfold raw_flag. now rewrite H1, H2, Hm.
  - split; discriminate.
Qed.

Lemma public_flags_agree_across_headers_witness :
  LMS.SWP_BIDIRECTIONAL = LDA.SWP_BIDIRECTIONAL
  /\ raw_flag Synthesizer Bidirectional 0x27 = raw_flag Attenuator Bidirectional 0x27.
Proof.
  assert (Hpub : Bidirectional <> DevLocked /\ Bidirectional <> DevRdThread)
    by (split; discriminate).
  destruct (public_flags_agree_across_headers
              Synthesizer Attenuator Bidirectional
              LMS.SWP_BIDIRECTIONAL LDA.SWP_BIDIRECTIONAL eq_refl eq_refl Hpub)
    as (Hm & Hw & _).
  split; [exact Hm | exact (Hw 0x27)].
Defined.

(** *** Fields of the mode word *)

Lemma set_bits_frame (mask other w : Z) :
  Z.land mask other = 0 -> Z.land (set_bits w mask) other = Z.land w other.
Proof.
  intros Hdisj. apply Z.bits_inj'. intros n Hn.
  assert (Hbit : Z.testbit mask n && Z.testbit other n = false).
  { rewrite <- Z.land_spec, Hdisj. apply Z.bits_0. }
  unfold set_bits. rewrite !Z.land_spec, Z.lor_spec.
  destruct (Z.testbit mask n), (Z.testbit other n), (Z.testbit w n);
    simpl in *; congruence.
Qed.

Lemma clear_bits_frame (mask other w : Z) :
  Z.land mask other = 0 -> Z.land (clear_bits w mask) other = Z.land w other.
Proof.
  intros Hdisj. apply Z.bits_inj'. intros n Hn.
  assert (Hbit : Z.testbit mask n && Z.testbit other n = false).
  { rewrite <- Z.land_spec, Hdisj. apply Z.bits_0. }
  unfold clear_bits. rewrite !Z.land_spec, Z.lnot_spec by lia.
  destruct (Z.testbit mask n), (Z.testbit other n), (Z.testbit w n);
    simpl in *; congruence.
Qed.

Lemma mode_masks_disjoint fam f1 f2 m1 m2 :
  mode_mask fam f1 = Some m1 -> mode_mask fam f2 = Some m2 -> f1 <> f2 ->
  Z.land m1 m2 = 0.
Proof.
  intros H1 H2 Hne.
  destruct fam, f1, f2; simpl in H1, H2; try discriminate;
    try (exfalso; apply Hne; reflexivity);
    injection H1 as <-; injection H2 as <-; reflexivity.
Qed.

(** X6. Within one header the mode masks (RF on, internal reference,
    sweep/ramp control and, for the synthesizer, the two PWM bits) share no
    bit: setting, clearing or rewriting one field of a mode word leaves
    every other field of that family as it was, for every word. *)
Theorem mode_fields_independent
    (fam : Family) (f1 f2 : ModeField) (m1 m2 : Z) (mode bits : Z)
    (H1 : mode_mask fam f1 = Some m1) (H2 : mode_mask fam f2 = Some m2)
    (Hne : f1 <> f2) :
  Z.land m1 m2 = 0
  /\ Z.land (set_bits mode m1) m2 = Z.land mode m2
  /\ Z.land (clear_bits mode m1) m2 = Z.land mode m2
  /\ Z.land (Z.lor (clear_bits mode m1) (Z.land bits m1)) m2 = Z.land mode m2
  /\ Z.land (Z.lor (clear_bits mode m1) (Z.land bits m1)) m1 = Z.land bits m1.
Proof.
  pose proof (mode_masks_disjoint _ _ _ _ _ H1 H2 Hne) as Hdisj.
  split; [exact Hdisj|].
  split; [now apply set_bits_frame|].
  split; [now apply clear_bits_frame|].
  split; [now apply (update_field_frame m1 m2 mode bits)|].
  apply (update_field_read m1 mode bits).
Qed.

Lemma mode_fields_independent_witness :
  Z.land LDA.MODE_RFON LDA.MODE_SWEEP = 0
  /\ Z.land (set_bits 0x0A LDA.MODE_RFON) LDA.MODE_SWEEP = Z.land 0x0A LDA.MODE_SWEEP
  /\ Z.land (clear_bits 0x4A LDA.MODE_RFON) LDA.MODE_SWEEP
     = Z.land 0x4A LDA.MODE_SWEEP.
Proof.
  assert (Hne : RfOn <> SweepControl) by discriminate.
  destruct (mode_fields_independent
              Attenuator RfOn SweepControl LDA.MODE_RFON LDA.MODE_SWEEP 0x0A 0
              eq_refl eq_refl Hne) as (Hd & Hs & _).
  destruct (mode_fields_independent
              Attenuator RfOn SweepControl LDA.MODE_RFON LDA.MODE_SWEEP 0x4A 0
              eq_refl eq_refl Hne) as (_ & _ & Hc & _).
  split; [exact Hd|]. split; [exact Hs | exact Hc].
Defined.

(** X7. The three headers reuse the names [MODE_RFON] and [MODE_SWEEP] with
    different values, and the attenuator's ramp mask covers the bit the
    synthesizer and generator use for RF on.  So for every mode word,
    clearing or rewriting the control field with the attenuator's mask
    overwrites the synthesizer's (and generator's) RF-on bit, while the
    family's own mask keeps it. *)
Theorem attenuator_ramp_mask_covers_rf_on (mode bits : Z) :
  Z.land (MODE_SWEEP Attenuator) (MODE_RFON Synthesizer) = MODE_RFON Synthesizer
  /\ mode_rf_on Synthesizer (clear_bits mode (MODE_SWEEP Attenuator)) = false
  /\ mode_rf_on Generator (clear_bits mode (MODE_SWEEP Attenuator)) = false
  /\ mode_rf_on Synthesizer
       (Z.lor (clear_bits mode (MODE_SWEEP Attenuator))
              (Z.land bits (MODE_SWEEP Attenuator))) = Z.testbit bits 4
  /\ mode_rf_on Synthesizer (clear_bits mode (MODE_SWEEP Synthesizer))
     = mode_rf_on Synthesizer mode
  /\ mode_rf_on Attenuator (clear_bits mode (MODE_SWEEP Attenuator))
     = mode_rf_on Attenuator mode.
Proof.
  assert (Hrf4 : forall fam x, fam <> Attenuator ->
                               mode_rf_on fam x = Z.testbit x 4).
  { intros fam x Hf. unfold mode_rf_on.
    destruct fam; [| |congruence]; apply (flag_set_pow2 x 4); lia. }
  assert (Hrf6 : forall x, mode_rf_on Attenuator x = Z.testbit x 6).
  { intros x. apply (flag_set_pow2 x 6). lia. }
  split; [reflexivity|].
  rewrite !Hrf4, !Hrf6 by discriminate.
  unfold clear_bits.
  rewrite Z.lor_spec, !Z.land_spec, !Z.lnot_spec by lia.
  change (Z.testbit (MODE_SWEEP Attenuator) 4) with true.
  change (Z.testbit (MODE_SWEEP Attenuator) 6) with false.
  change (Z.testbit (MODE_SWEEP Synthesizer) 4) with false.
  simpl. rewrite !andb_false_r, !andb_true_r. simpl.
  repeat split; reflexivity.
Qed.

(** *** Error codes against status flags *)

(** X8. Error codes and status words share the [int] return type and the top
    bit.  Tested with the DevStatus masks of any header, every error code
    shows [INVALID_DEVID] and no other flag; [STATUS_OK] shows none. *)
Theorem error_codes_as_status_words
    (fam fam' : Family) (s : Status) (c : Z) (fl : Flag) (m : Z)
    (Hc : status_code fam s = Some c) (Hm : status_mask fam' fl = Some m) :
  flag_set c m = is_error s && bool_decide (fl = InvalidDevId).
Proof.
  destruct fam, s; simpl in Hc; try discriminate; injection Hc as <-;
    destruct fam', fl; simpl in Hm; try discriminate; injection Hm as <-;
    reflexivity.
Qed.

Lemma error_codes_as_status_words_witness :
  flag_set LDA.DEVICE_NOT_READY LMS.DEV_CONNECTED = false
  /\ flag_set LDA.DEVICE_NOT_READY LMS.INVALID_DEVID = true.
Proof.
  split.
  - exact (error_codes_as_status_words
             Attenuator Synthesizer StDeviceNotReady LDA.DEVICE_NOT_READY
             Connected LMS.DEV_CONNECTED eq_refl eq_refl).
  - exact (error_codes_as_status_words
             Attenuator Synthesizer StDeviceNotReady LDA.DEVICE_NOT_READY
             InvalidDevId LMS.INVALID_DEVID eq_refl eq_refl).
Defined.
